(** * terraform-sbom: a shallow embedding of [main.go] and its properties

    The development follows the layout of the program:
    - [strings]   the functions of Go's [strings] package that [extractVersion] calls;
    - [tfconfig]  the data returned by [tfconfig.LoadModule];
    - [ModuleInfo], [SBOM], [extractVersion], [generateSBOM];
    - [os], [csv], [json], [xml] and the three emitters.

    Go strings are byte sequences; they are modelled by [string], whose
    characters ([ascii]) are bytes. *)

From Stdlib Require Import Ascii String.
From stdpp Require Import gmap strings list fin_maps.

Set Warnings "-register-all".

#[local] Arguments String.append !s1 s2 : simpl nomatch.

Local Open Scope string_scope.
Local Open Scope list_scope.
Local Open Scope nat_scope.

(** ** Byte strings and slicing *)

(** [s[n:]] *)
Fixpoint slice_from (n : nat) (s : string) : string :=
  match n, s with
  | 0, _ => s
  | S n', String _ s' => slice_from n' s'
  | S _, EmptyString => EmptyString
  end.

(** [s[:n]] *)
Fixpoint slice_to (n : nat) (s : string) : string :=
  match n, s with
  | 0, _ => EmptyString
  | S n', String c s' => String c (slice_to n' s')
  | S _, EmptyString => EmptyString
  end.

(** ** Package [strings] *)

Module strings.

(** [func HasPrefix(s, prefix string) bool]:
    [len(s) >= len(prefix) && s[:len(prefix)] == prefix]. *)
Definition HasPrefix (s prefix : string) : bool :=
  (String.length prefix <=? String.length s)
  && String.eqb (slice_to (String.length prefix) s) prefix.

(** [func Index(s, substr string) int]: the index of the first instance of
    [substr] in [s]; [None] stands for Go's [-1]. *)
Fixpoint Index (s substr : string) : option nat :=
  if HasPrefix s substr then Some 0
  else match s with
       | EmptyString => None
       | String _ s' => S <$> Index s' substr
       end.

(** [func Contains(s, substr string) bool]: [Index(s, substr) >= 0]. *)
Definition Contains (s substr : string) : bool :=
  match Index s substr with
  | Some _ => true
  | None => false
  end.

(** The loop of [func Count(s, substr string) int] for a separator of more
    than one byte:
    [for { i := Index(s, substr); if i == -1 { return n }; n++; s = s[i+len(substr):] }].
    Every round removes at least [len(substr)] bytes from [s], so the loop
    is unrolled [len(s)] times. *)
Fixpoint Count_loop (fuel : nat) (s substr : string) : nat :=
  match fuel with
  | 0 => 0
  | S fuel' =>
      match Index s substr with
      | None => 0
      | Some i => S (Count_loop fuel' (slice_from (i + String.length substr) s) substr)
      end
  end.

Definition Count (s substr : string) : nat :=
  Count_loop (String.length s) s substr.

(** The loop of [genSplit(s, sep, 0, -1)] for a non-empty separator:
    [for i < n { m := Index(s, sep); if m < 0 { break }; a[i] = s[:m];
                 s = s[m+len(sep):]; i++ }; a[i] = s; return a[:i+1]]. *)
Fixpoint genSplit_loop (n : nat) (s sep : string) : list string :=
  match n with
  | 0 => [s]
  | S n' =>
      match Index s sep with
      | None => [s]
      | Some m => slice_to m s :: genSplit_loop n' (slice_from (m + String.length sep) s) sep
      end
  end.

(** [func Split(s, sep string) []string], for the non-empty separators the
    program uses: [n = Count(s, sep) + 1], capped at [len(s) + 1], and the
    loop above runs [n - 1] times. *)
Definition Split (s sep : string) : list string :=
  genSplit_loop (Nat.min (Count s sep) (String.length s)) s sep.

End strings.

(** ** Package [unicode/utf8] *)

Module utf8.

(** Runes are code points, here numbers. *)
Definition RuneError : N := 65533.

Definition between (lo hi b : N) : bool := ((lo <=? b) && (b <=? hi))%N.

(** The table [first] together with [acceptRanges]: for a leading byte, the
    length of the sequence and the range accepted for the second byte;
    [None] is the entry [xx] (invalid leading byte). *)
Definition first (b : N) : option (nat * N * N) :=
  if between 194 223 b then Some (2, 128%N, 191%N)
  else if (b =? 224)%N then Some (3, 160%N, 191%N)
  else if between 225 236 b then Some (3, 128%N, 191%N)
  else if (b =? 237)%N then Some (3, 128%N, 159%N)
  else if between 238 239 b then Some (3, 128%N, 191%N)
  else if (b =? 240)%N then Some (4, 144%N, 191%N)
  else if between 241 243 b then Some (4, 128%N, 191%N)
  else if (b =? 244)%N then Some (4, 128%N, 143%N)
  else None.

(** [func DecodeRuneInString(s string) (rune, int)] *)
Definition DecodeRuneInString (s : string) : N * nat :=
  match s with
  | EmptyString => (RuneError, 0)
  | String c0 t0 =>
      let s0 := N_of_ascii c0 in
      if (s0 <? 128)%N then (s0, 1)
      else
        match first s0 with
        | None => (RuneError, 1)
        | Some (sz, lo, hi) =>
            if String.length s <? sz then (RuneError, 1)
            else
              match t0 with
              | EmptyString => (RuneError, 1)
              | String c1 t1 =>
                  let s1 := N_of_ascii c1 in
                  if negb (between lo hi s1) then (RuneError, 1)
                  else if sz <=? 2 then
                    (N.lor (N.shiftl (N.land s0 31) 6) (N.land s1 63), 2)
                  else
                    match t1 with
                    | EmptyString => (RuneError, 1)
                    | String c2 t2 =>
                        let s2 := N_of_ascii c2 in
                        if negb (between 128 191 s2) then (RuneError, 1)
                        else if sz <=? 3 then
                          (N.lor (N.lor (N.shiftl (N.land s0 15) 12)
                                        (N.shiftl (N.land s1 63) 6))
                                 (N.land s2 63), 3)
                        else
                          match t2 with
                          | EmptyString => (RuneError, 1)
                          | String c3 _ =>
                              let s3 := N_of_ascii c3 in
                              if negb (between 128 191 s3) then (RuneError, 1)
                              else
                                (N.lor (N.lor (N.lor (N.shiftl (N.land s0 7) 18)
                                                     (N.shiftl (N.land s1 63) 12))
                                              (N.shiftl (N.land s2 63) 6))
                                       (N.land s3 63), 4)
                          end
                    end
              end
        end
  end.

Definition byte (n : N) : ascii := ascii_of_N n.

(** [func AppendRune(p []byte, r rune) []byte], as a string: surrogates and
    runes out of range are encoded as [RuneError]. *)
Definition EncodeRune (r : N) : string :=
  let enc3 (r : N) :=
    String (byte (N.lor 224 (N.shiftr r 12)))
      (String (byte (N.lor 128 (N.land (N.shiftr r 6) 63)))
         (String (byte (N.lor 128 (N.land r 63))) EmptyString)) in
  if (r <=? 127)%N then String (byte r) EmptyString
  else if (r <=? 2047)%N then
    String (byte (N.lor 192 (N.shiftr r 6)))
      (String (byte (N.lor 128 (N.land r 63))) EmptyString)
  else if (1114111 <? r)%N || between 55296 57343 r then enc3 RuneError
  else if (r <=? 65535)%N then enc3 r
  else
    String (byte (N.lor 240 (N.shiftr r 18)))
      (String (byte (N.lor 128 (N.land (N.shiftr r 12) 63)))
         (String (byte (N.lor 128 (N.land (N.shiftr r 6) 63)))
            (String (byte (N.lor 128 (N.land r 63))) EmptyString))).

End utf8.

(** ** Package [unicode] *)

Module unicode.

(** [func IsSpace(r rune) bool]: the Latin-1 spaces and the code points
    with the property White_Space. *)
Definition IsSpace (r : N) : bool :=
  (utf8.between 9 13 r || (r =? 32) || (r =? 133) || (r =? 160)
   || (r =? 5760) || utf8.between 8192 8202 r || (r =? 8232) || (r =? 8233)
   || (r =? 8239) || (r =? 8287) || (r =? 12288))%N.

End unicode.
(** ** Go values shared by the packages below *)

(** An [error], by its message. *)
Definition error := string.

(** The byte of the double quote, and a few control bytes. *)
Definition dquote : ascii := "034"%char.
Definition LF : string := String "010"%char EmptyString.

(** [strings.Repeat] *)
Fixpoint Repeat (s : string) (count : nat) : string :=
  match count with
  | 0 => EmptyString
  | S n => s +:+ Repeat s n
  end.

(** [strings.Join] *)
Fixpoint Join (elems : list string) (sep : string) : string :=
  match elems with
  | [] => EmptyString
  | [e] => e
  | e :: rest => e +:+ sep +:+ Join rest sep
  end.

(** ** Package [os] and standard output

    A file system maps a path to a regular file with its contents or to a
    directory. Opening a directory for writing fails; no other failure of
    the operating system is modelled. *)

Module os.

Inductive node :=
  | File (content : string)
  | Dir.

Record World := {
  files : gmap string node;
  stdout : string;
}.

(** An open [*os.File]: the path it was opened at. Every write goes to the
    end of the file (the file is opened with [O_APPEND], or was truncated by
    [Create] and is written sequentially). *)
Abbreviation file := string (only parsing).

(** [os.Stat(name)]: the error, if any. *)
Definition Stat (name : string) (w : World) : option error :=
  match files w !! name with
  | Some _ => None
  | None => Some ("stat " +:+ name +:+ ": no such file or directory")
  end.

(** [os.OpenFile(name, os.O_APPEND|os.O_CREATE|os.O_WRONLY, 0644)] *)
Definition OpenFile (name : string) (w : World) : World * (file + error) :=
  match files w !! name with
  | None => ({| files := <[name := File ""]> (files w); stdout := stdout w |}, inl name)
  | Some (File _) => (w, inl name)
  | Some Dir => (w, inr ("open " +:+ name +:+ ": is a directory"))
  end.

(** [os.Create(name)]: [OpenFile(name, O_RDWR|O_CREATE|O_TRUNC, 0666)] *)
Definition Create (name : string) (w : World) : World * (file + error) :=
  match files w !! name with
  | Some Dir => (w, inr ("open " +:+ name +:+ ": is a directory"))
  | _ => ({| files := <[name := File ""]> (files w); stdout := stdout w |}, inl name)
  end.

(** [f.Write(b)] *)
Definition Write (f : file) (b : string) (w : World) : World :=
  match files w !! f with
  | Some (File content) =>
      {| files := <[f := File (content +:+ b)]> (files w); stdout := stdout w |}
  | _ => w
  end.

(** [f.Close()] *)
Definition Close (f : file) (w : World) : World := w.

(** [os.ReadFile(name)] *)
Definition ReadFile (name : string) (w : World) : string + error :=
  match files w !! name with
  | Some (File content) => inl content
  | Some Dir => inr ("read " +:+ name +:+ ": is a directory")
  | None => inr ("open " +:+ name +:+ ": no such file or directory")
  end.

End os.

Module fmt.

(** [fmt.Printf], given the formatted text. *)
Definition Printf (text : string) (w : os.World) : os.World :=
  {| os.files := os.files w; os.stdout := os.stdout w +:+ text |}.

End fmt.

(** ** Package [encoding/csv] *)

Module csv.

(** A [*csv.Writer] with [Comma = ','] and [UseCRLF = false]: the file it
    writes to and the bytes written so far. The writer is buffered; what
    reaches the file is the concatenation of the buffered bytes, which is
    written here all at once by [Flush]. *)
Record Writer := {
  w : os.file;
  buf : string;
}.

Definition NewWriter (f : os.file) : Writer := {| w := f; buf := "" |}.

Fixpoint has_special (field : string) : bool :=
  match field with
  | EmptyString => false
  | String c rest =>
      Ascii.eqb c "010" || Ascii.eqb c "013" || Ascii.eqb c dquote || Ascii.eqb c ","
      || has_special rest
  end.

(** [func (w *Writer) fieldNeedsQuotes(field string) bool] *)
Definition fieldNeedsQuotes (field : string) : bool :=
  if String.eqb field "" then false
  else if String.eqb field "\." then true
  else if has_special field then true
  else unicode.IsSpace (utf8.DecodeRuneInString field).1.

(** The body of a quoted field: a quote is doubled, every other byte
    (carriage return and line feed included) is copied. *)
Fixpoint quoted (field : string) : string :=
  match field with
  | EmptyString => EmptyString
  | String c rest =>
      if Ascii.eqb c dquote then String dquote (String dquote (quoted rest))
      else String c (quoted rest)
  end.

Definition write_field (field : string) : string :=
  if fieldNeedsQuotes field
  then String dquote (quoted field) +:+ String dquote EmptyString
  else field.

(** The bytes of one record: its fields separated by commas, then a line feed. *)
Definition record_bytes (record : list string) : string :=
  Join (write_field <$> record) "," +:+ LF.

(** [func (w *Writer) Write(record []string) error] *)
Definition Write (wr : Writer) (record : list string) : Writer * option error :=
  ({| w := w wr; buf := buf wr +:+ record_bytes record |}, None).

(** [func (w *Writer) Flush()] *)
Definition Flush (wr : Writer) (world : os.World) : os.World :=
  os.Write (w wr) (buf wr) world.

End csv.
(** ** Package [encoding/json]: encoding *)

Module json.

Definition hex_digit (n : N) : ascii :=
  match String.get (N.to_nat n) "0123456789abcdef" with
  | Some c => c
  | None => "0"%char
  end.

(** [htmlSafeSet[b]]: the ASCII bytes that need no escape when HTML
    escaping is on (the default of an [Encoder]). *)
Definition htmlSafe (b : N) : bool :=
  ((32 <=? b) && negb ((b =? 34) || (b =? 92) || (b =? 60) || (b =? 62) || (b =? 38)))%N.

(** The escape written for an ASCII byte that is not [htmlSafe]. *)
Definition escape_byte (b : N) : string :=
  if ((b =? 92) || (b =? 34))%N then String "\" (String (ascii_of_N b) EmptyString)
  else if (b =? 8)%N then "\b"
  else if (b =? 12)%N then "\f"
  else if (b =? 10)%N then "\n"
  else if (b =? 13)%N then "\r"
  else if (b =? 9)%N then "\t"
  else "\u00" +:+ String (hex_digit (N.shiftr b 4)) (String (hex_digit (N.land b 15)) EmptyString).

(** The loop of [appendString(dst, src, escapeHTML = true)]. [skip] counts
    the remaining bytes of a multi-byte rune that was already decoded:
    they are copied when [copy] holds and dropped otherwise. *)
Fixpoint appendString_loop (skip : nat) (copy : bool) (src : string) : string :=
  match src with
  | EmptyString => EmptyString
  | String b rest =>
      match skip with
      | S k =>
          if copy then String b (appendString_loop k copy rest)
          else appendString_loop k copy rest
      | 0 =>
          let n := N_of_ascii b in
          if (n <? 128)%N then
            if htmlSafe n then String b (appendString_loop 0 true rest)
            else escape_byte n +:+ appendString_loop 0 true rest
          else
            let '(c, size) := utf8.DecodeRuneInString src in
            if (c =? utf8.RuneError)%N && (size =? 1) then
              "\ufffd" +:+ appendString_loop 0 true rest
            else if ((c =? 8232) || (c =? 8233))%N then
              "\u202" +:+ String (hex_digit (N.land c 15))
                                 (appendString_loop (size - 1) false rest)
            else String b (appendString_loop (size - 1) true rest)
      end
  end.

(** [appendString]: a JSON string literal. *)
Definition appendString (src : string) : string :=
  String dquote (appendString_loop 0 true src) +:+ String dquote EmptyString.

(** The state of [appendIndent]: inside a string literal, after a
    backslash, the delayed indent, the depth, and the nesting of brackets
    that tells the end of the top-level value. *)
Record indent_state := {
  in_string : bool;
  escaped : bool;
  needIndent : bool;
  depth : nat;
  nesting : nat;
}.

Definition appendNewline (prefix indent : string) (depth : nat) : string :=
  LF +:+ prefix +:+ Repeat indent depth.

Definition is_space (c : ascii) : bool :=
  Ascii.eqb c " " || Ascii.eqb c "009" || Ascii.eqb c "010" || Ascii.eqb c "013".

(** The loop of [appendIndent(dst, src, prefix, indent)] on a valid,
    compact JSON object or array followed by white space, which is what
    [Encoder.Encode] passes to it. *)
Fixpoint appendIndent_loop (st : indent_state) (prefix indent src : string) : string :=
  match src with
  | EmptyString => EmptyString
  | String c rest =>
      if in_string st then
        let st' :=
          if escaped st then
            {| in_string := true; escaped := false; needIndent := needIndent st;
               depth := depth st; nesting := nesting st |}
          else
            {| in_string := negb (Ascii.eqb c dquote); escaped := Ascii.eqb c "\";
               needIndent := needIndent st; depth := depth st; nesting := nesting st |} in
        String c (appendIndent_loop st' prefix indent rest)
      else if is_space c then
        if (nesting st =? 0) then String c (appendIndent_loop st prefix indent rest)
        else appendIndent_loop st prefix indent rest
      else
        let closing := Ascii.eqb c "}" || Ascii.eqb c "]" in
        let opening := Ascii.eqb c "{" || Ascii.eqb c "[" in
        let indent_now := needIndent st && negb closing in
        let d := if indent_now then S (depth st) else depth st in
        let pre := if indent_now then appendNewline prefix indent d else EmptyString in
        let need := if indent_now then false else needIndent st in
        if opening then
          pre +:+ String c (appendIndent_loop
            {| in_string := false; escaped := false; needIndent := true;
               depth := d; nesting := S (nesting st) |} prefix indent rest)
        else if Ascii.eqb c "," then
          pre +:+ String c (appendNewline prefix indent d +:+ appendIndent_loop
            {| in_string := false; escaped := false; needIndent := need;
               depth := d; nesting := nesting st |} prefix indent rest)
        else if Ascii.eqb c ":" then
          pre +:+ String c (String " " (appendIndent_loop
            {| in_string := false; escaped := false; needIndent := need;
               depth := d; nesting := nesting st |} prefix indent rest))
        else if closing then
          if need then
            String c (appendIndent_loop
              {| in_string := false; escaped := false; needIndent := false;
                 depth := d; nesting := pred (nesting st) |} prefix indent rest)
          else
            appendNewline prefix indent (pred d) +:+ String c (appendIndent_loop
              {| in_string := false; escaped := false; needIndent := false;
                 depth := pred d; nesting := pred (nesting st) |} prefix indent rest)
        else
          pre +:+ String c (appendIndent_loop
            {| in_string := Ascii.eqb c dquote; escaped := false; needIndent := need;
               depth := d; nesting := nesting st |} prefix indent rest)
  end.

Definition appendIndent (prefix indent src : string) : string :=
  appendIndent_loop
    {| in_string := false; escaped := false; needIndent := false; depth := 0; nesting := 0 |}
    prefix indent src.

End json.

(** ** Package [encoding/xml]: encoding *)

Module xml.

(** [type Name struct { Space, Local string }] *)
Record Name := {
  Space : string;
  Local : string;
}.

(** [func isInCharacterRange(r rune) bool] *)
Definition isInCharacterRange (r : N) : bool :=
  ((r =? 9) || (r =? 10) || (r =? 13) || utf8.between 32 55295 r
   || utf8.between 57344 65533 r || utf8.between 65536 1114111 r)%N.

(** The replacement written by [EscapeString] for the rune [r] of encoded
    width [width], if any. *)
Definition escape_rune (r : N) (width : nat) : option string :=
  if (r =? 34)%N then Some "&#34;"
  else if (r =? 39)%N then Some "&#39;"
  else if (r =? 38)%N then Some "&amp;"
  else if (r =? 60)%N then Some "&lt;"
  else if (r =? 62)%N then Some "&gt;"
  else if (r =? 9)%N then Some "&#x9;"
  else if (r =? 10)%N then Some "&#xA;"
  else if (r =? 13)%N then Some "&#xD;"
  else if negb (isInCharacterRange r) || ((r =? 65533)%N && (width =? 1))
  then Some (utf8.EncodeRune 65533)
  else None.

(** The loop of [func (p *printer) EscapeString(s string)]; [skip] counts
    the remaining bytes of the rune decoded last, copied when [copy] holds. *)
Fixpoint EscapeString_loop (skip : nat) (copy : bool) (s : string) : string :=
  match s with
  | EmptyString => EmptyString
  | String b rest =>
      match skip with
      | S k =>
          if copy then String b (EscapeString_loop k copy rest)
          else EscapeString_loop k copy rest
      | 0 =>
          let '(r, width) := utf8.DecodeRuneInString s in
          match escape_rune r width with
          | Some esc => esc +:+ EscapeString_loop (width - 1) false rest
          | None => String b (EscapeString_loop (width - 1) true rest)
          end
      end
  end.

(** The [printer] of an [Encoder]: the bytes written and the state of the
    indentation. *)
Record printer := {
  out : string;
  prefix : string;
  indent : string;
  depth : nat;
  indentedIn : bool;
  putNewline : bool;
}.

Definition NewPrinter : printer :=
  {| out := ""; prefix := ""; indent := ""; depth := 0;
     indentedIn := false; putNewline := false |}.

(** [func (enc *Encoder) Indent(prefix, indent string)] *)
Definition Indent (prefix' indent' : string) (p : printer) : printer :=
  {| out := out p; prefix := prefix'; indent := indent'; depth := depth p;
     indentedIn := indentedIn p; putNewline := putNewline p |}.

Definition WriteString (s : string) (p : printer) : printer :=
  {| out := out p +:+ s; prefix := prefix p; indent := indent p; depth := depth p;
     indentedIn := indentedIn p; putNewline := putNewline p |}.

(** The common end of [writeIndent]: the line break, the prefix and the
    indentation for the current depth. *)
Definition writeIndent_line (opening : bool) (p : printer) : printer :=
  let p1 := if putNewline p then WriteString LF p else p in
  let p2 := WriteString (prefix p1 +:+ Repeat (indent p1) (depth p1)) p1 in
  {| out := out p2; prefix := prefix p2; indent := indent p2;
     depth := if opening then S (depth p2) else depth p2;
     indentedIn := if opening then true else indentedIn p2;
     putNewline := true |}.

(** [func (p *printer) writeIndent(depthDelta int)] with [depthDelta = 1] *)
Definition writeIndent_in (p : printer) : printer :=
  if String.eqb (prefix p) "" && String.eqb (indent p) "" then p
  else writeIndent_line true p.

(** [writeIndent] with [depthDelta = -1] *)
Definition writeIndent_out (p : printer) : printer :=
  if String.eqb (prefix p) "" && String.eqb (indent p) "" then p
  else
    let p1 := {| out := out p; prefix := prefix p; indent := indent p;
                 depth := pred (depth p); indentedIn := false;
                 putNewline := putNewline p |} in
    if indentedIn p then p1 else writeIndent_line false p1.

(** [writeStart] and [writeEnd] for an element without attributes or
    name space. *)
Definition writeStart (name : string) (p : printer) : printer :=
  WriteString ("<" +:+ name +:+ ">") (writeIndent_in p).

Definition writeEnd (name : string) (p : printer) : printer :=
  WriteString ("</" +:+ name +:+ ">") (writeIndent_out p).

Definition EscapeString (s : string) (p : printer) : printer :=
  WriteString (EscapeString_loop 0 true s) p.

(** A field of kind string marshalled as the element [name]. *)
Definition marshalString (name s : string) (p : printer) : printer :=
  writeEnd name (EscapeString s (writeStart name p)).

End xml.
(** ** Package [tfconfig] (github.com/hashicorp/terraform-config-inspect) *)

Module tfconfig.

(** [type ModuleCall struct { Name, Source, Version string; Pos SourcePos }];
    the program never reads [Pos]. *)
Record ModuleCall := {
  Name : string;
  Source : string;
  Version : string;
}.

(** [type Module struct]: of its fields the program reads only
    [ModuleCalls map[string]*ModuleCall]. *)
Record Module := {
  ModuleCalls : gmap string ModuleCall;
}.

(** What the program uses of the package: [LoadModule], and on the
    [Diagnostics] it returns [HasErrors] and the text of [Err()]. *)
Class Loader := {
  Diagnostics : Type;
  HasErrors : Diagnostics → bool;
  Err : Diagnostics → error;
  LoadModule : string → Module * Diagnostics;
}.

End tfconfig.

(** [for _, v := range m] over a Go map visits every entry once, in an
    order the language does not specify and that may differ from one loop
    to the next. [map_range m vs] holds when a loop over [m] can yield the
    values in the order [vs]. *)
Definition map_range {V} (m : gmap string V) (vs : list V) : Prop :=
  vs ≡ₚ (map_to_list m).*2.

(** ** [main.go] *)

(** [type ModuleInfo struct] *)
Record ModuleInfo := {
  Name : string;
  Source : string;
  Version : string;
  Config : string;
}.

(** [type SBOM struct]; a nil slice and an empty one are both []. *)
Record SBOM := {
  XMLName : xml.Name;
  Modules : list ModuleInfo;
}.

(** [var sbom SBOM] *)
Definition SBOM_zero : SBOM :=
  {| XMLName := {| xml.Space := ""; xml.Local := "" |}; Modules := [] |}.

(** [func extractVersion(modCall *tfconfig.ModuleCall) string] *)
Definition extractVersion (modCall : tfconfig.ModuleCall) : string :=
  if negb (String.eqb (tfconfig.Version modCall) "") then tfconfig.Version modCall
  else
    let source := tfconfig.Source modCall in
    let ref :=
      if strings.Contains source "?ref=" then
        let parts := strings.Split source "?ref=" in
        if 1 <? length parts then Some (nth 1 parts "") else None
      else None in
    match ref with
    | Some v => v
    | None =>
        if strings.HasPrefix source "./" || strings.HasPrefix source "../"
        then "local"
        else "N/A"
    end.

(** The body of the loop of [generateSBOM]. *)
Definition generateSBOM_step (configPath : string) (sbom : SBOM)
    (modCall : tfconfig.ModuleCall) : SBOM :=
  let modInfo := {| Name := tfconfig.Name modCall;
                    Source := tfconfig.Source modCall;
                    Version := "";
                    Config := configPath |} in
  let modInfo := {| Name := Name modInfo; Source := Source modInfo;
                    Version := extractVersion modCall;
                    Config := Config modInfo |} in
  {| XMLName := XMLName sbom; Modules := Modules sbom ++ [modInfo] |}.

Section GenerateSBOM.

Context `{tfconfig.Loader}.

(** [func generateSBOM(configPath string)], which returns an [*SBOM] and an [error], in the run where
    the loop over [module.ModuleCalls] yields [calls]. *)
Definition generateSBOM_run (calls : list tfconfig.ModuleCall) (configPath : string)
    : option SBOM * option error :=
  let '(module, diag) := tfconfig.LoadModule configPath in
  if tfconfig.HasErrors diag then
    (None, Some ("failed to load Terraform module: " +:+ tfconfig.Err diag))
  else
    (Some (foldl (generateSBOM_step configPath) SBOM_zero calls), None).

(** [generateSBOM configPath r]: a call of [generateSBOM(configPath)] can
    return [r]. *)
Inductive generateSBOM (configPath : string) : option SBOM * option error → Prop :=
  | generateSBOM_intro calls :
      map_range (tfconfig.ModuleCalls (tfconfig.LoadModule configPath).1) calls →
      generateSBOM configPath (generateSBOM_run calls configPath).

End GenerateSBOM.

(** [func fileExists(filePath string) bool] *)
Definition fileExists (filePath : string) (w : os.World) : bool :=
  match os.Stat filePath w with
  | None => true
  | Some _ => false
  end.

Definition csv_header : list string :=
  ["Config Path"; "Module Name"; "Source"; "Version"].

Definition csv_record (mod_ : ModuleInfo) : list string :=
  [Config mod_; Name mod_; Source mod_; Version mod_].

(** [for _, mod := range sbom.Modules { err = writer.Write(...); ... }] *)
Fixpoint write_records (writer : csv.Writer) (mods : list ModuleInfo)
    : csv.Writer * option error :=
  match mods with
  | [] => (writer, None)
  | mod_ :: rest =>
      match csv.Write writer (csv_record mod_) with
      | (writer', Some err) => (writer', Some ("failed to write CSV record: " +:+ err))
      | (writer', None) => write_records writer' rest
      end
  end.

Definition written_to (outputPath : string) : string :=
  "SBOM successfully written to " +:+ outputPath +:+ LF.

(** [func writeSBOMToCSV(sbom *SBOM, outputPath string) error] *)
Definition writeSBOMToCSV (sbom : SBOM) (outputPath : string) (w : os.World)
    : os.World * option error :=
  let fileExists := fileExists outputPath w in
  match os.OpenFile outputPath w with
  | (w, inr err) => (w, Some ("failed to open CSV file: " +:+ err))
  | (w, inl file) =>
      let writer := csv.NewWriter file in
      (* the deferred calls, last one first *)
      let deferred writer w := os.Close file (csv.Flush writer w) in
      match (if negb fileExists then csv.Write writer csv_header else (writer, None)) with
      | (writer, Some err) =>
          (deferred writer w, Some ("failed to write CSV header: " +:+ err))
      | (writer, None) =>
          match write_records writer (Modules sbom) with
          | (writer, Some err) => (deferred writer w, Some err)
          | (writer, None) =>
              (deferred writer (fmt.Printf (written_to outputPath) w), None)
          end
      end
  end.

(** [json.Marshal] of a [ModuleInfo] and of an [SBOM]: the fields in the
    order of the struct, under the names of their [json] tags; [XMLName]
    has the tag ["-"]; a nil slice is [null]. The empty list stands for the
    nil slice, the one [generateSBOM] leaves when there is no module call;
    an empty slice that is not nil, which [encoding/json] writes as an
    empty array, has no counterpart in [SBOM]. *)
Definition json_Marshal_ModuleInfo (mod_ : ModuleInfo) : string :=
  "{" +:+ json.appendString "name" +:+ ":" +:+ json.appendString (Name mod_)
  +:+ "," +:+ json.appendString "source" +:+ ":" +:+ json.appendString (Source mod_)
  +:+ "," +:+ json.appendString "version" +:+ ":" +:+ json.appendString (Version mod_)
  +:+ "," +:+ json.appendString "config" +:+ ":" +:+ json.appendString (Config mod_)
  +:+ "}".

Definition json_Marshal (sbom : SBOM) : string :=
  "{" +:+ json.appendString "modules" +:+ ":"
  +:+ match Modules sbom with
      | [] => "null"
      | mods => "[" +:+ Join (json_Marshal_ModuleInfo <$> mods) "," +:+ "]"
      end
  +:+ "}".

(** [encoder.SetIndent("", "  "); encoder.Encode(sbom)]: the bytes written. *)
Definition json_Encode (sbom : SBOM) : string :=
  json.appendIndent "" "  " (json_Marshal sbom +:+ LF).

(** [func writeSBOMToJSON(sbom *SBOM, outputPath string) error]. A write to
    an open file always succeeds in [os], so the return
    [failed to write JSON file] of the source, taken when [Encode] fails
    after the file was created or truncated, has no branch here. *)
Definition writeSBOMToJSON (sbom : SBOM) (outputPath : string) (w : os.World)
    : os.World * option error :=
  match os.Create outputPath w with
  | (w, inr err) => (w, Some ("failed to create JSON file: " +:+ err))
  | (w, inl file) =>
      let w := os.Write file (json_Encode sbom) w in
      let w := fmt.Printf (written_to outputPath) w in
      (os.Close file w, None)
  end.

(** [xml.Marshal] of a [ModuleInfo] and of an [SBOM]: the element names of
    the [xml] tags; the path [Modules>Module] opens [Modules] once around
    all the [Module] elements. *)
Definition xml_marshal_ModuleInfo (p : xml.printer) (mod_ : ModuleInfo) : xml.printer :=
  let p := xml.writeStart "Module" p in
  let p := xml.marshalString "Name" (Name mod_) p in
  let p := xml.marshalString "Source" (Source mod_) p in
  let p := xml.marshalString "Version" (Version mod_) p in
  let p := xml.marshalString "ConfigPath" (Config mod_) p in
  xml.writeEnd "Module" p.

Definition xml_marshal (sbom : SBOM) (p : xml.printer) : xml.printer :=
  let p := xml.writeStart "SBOM" p in
  let p := xml.writeStart "Modules" p in
  let p := foldl xml_marshal_ModuleInfo p (Modules sbom) in
  let p := xml.writeEnd "Modules" p in
  xml.writeEnd "SBOM" p.

(** [encoder.Indent("", "  "); encoder.Encode(sbom)]: the bytes written. *)
Definition xml_Encode (sbom : SBOM) : string :=
  xml.out (xml_marshal sbom (xml.Indent "" "  " xml.NewPrinter)).

(** [func writeSBOMToXML(sbom *SBOM, outputPath string) error]. As for
    JSON, the return [failed to write XML file] of the source has no branch
    here. *)
Definition writeSBOMToXML (sbom : SBOM) (outputPath : string) (w : os.World)
    : os.World * option error :=
  match os.Create outputPath w with
  | (w, inr err) => (w, Some ("failed to create XML file: " +:+ err))
  | (w, inl file) =>
      let w := os.Write file (xml_Encode sbom) w in
      let w := fmt.Printf (written_to outputPath) w in
      (os.Close file w, None)
  end.

(** ** Package [encoding/json]: decoding *)

Module decode.

(** A JSON document. *)
Inductive value :=
  | Null
  | Bool (b : bool)
  | Number (literal : string)
  | Str (s : string)
  | Array (elements : list value)
  | Object (members : list (string * value)).

Fixpoint skip_space (s : string) : string :=
  match s with
  | String c rest => if json.is_space c then skip_space rest else s
  | EmptyString => s
  end.

Definition is_digit (c : ascii) : bool :=
  utf8.between 48 57 (N_of_ascii c).

(** The value of a hexadecimal digit. *)
Definition hex_value (c : ascii) : option N :=
  let n := N_of_ascii c in
  if utf8.between 48 57 n then Some (n - 48)%N
  else if utf8.between 97 102 n then Some (n - 87)%N
  else if utf8.between 65 70 n then Some (n - 55)%N
  else None.

(** [getu4]: the rune of four hexadecimal digits. *)
Definition getu4 (a b c d : ascii) : option N :=
  match hex_value a, hex_value b, hex_value c, hex_value d with
  | Some x, Some y, Some z, Some t => Some (4096 * x + 256 * y + 16 * z + t)%N
  | _, _, _, _ => None
  end.

(** [utf16.DecodeRune] *)
Definition utf16_DecodeRune (r1 r2 : N) : N :=
  if utf8.between 55296 56319 r1 && utf8.between 56320 57343 r2
  then (N.lor (N.shiftl (r1 - 55296) 10) (r2 - 56320) + 65536)%N
  else utf8.RuneError.

(** The second half of a surrogate pair, when [s] starts with one:
    the rune of the pair for the first half [r1], and the rest. *)
Definition low_surrogate (r1 : N) (s : string) : option (N * string) :=
  match s with
  | String "\" (String "u" (String a (String b (String c (String d rest))))) =>
      match getu4 a b c d with
      | Some r2 =>
          let dec := utf16_DecodeRune r1 r2 in
          if (dec =? utf8.RuneError)%N then None else Some (dec, rest)
      | None => None
      end
  | _ => None
  end.

(** [unquote]: the text of a string literal, from the byte after its
    opening quote, and what follows its closing quote. [skip] counts the
    remaining bytes of a rune that was decoded and is copied. *)
Fixpoint unquote (skip : nat) (s : string) : option (string * string) :=
  let cons (c : ascii) (r : option (string * string)) :=
    match r with
    | Some (text, rest) => Some (String c text, rest)
    | None => None
    end in
  let app (t : string) (r : option (string * string)) :=
    match r with
    | Some (text, rest) => Some (t +:+ text, rest)
    | None => None
    end in
  match s with
  | EmptyString => None
  | String b rest =>
      match skip with
      | S k => cons b (unquote k rest)
      | 0 =>
          let n := N_of_ascii b in
          if Ascii.eqb b dquote then Some (EmptyString, rest)
          else if (n <? 32)%N then None
          else if Ascii.eqb b "\" then
            match rest with
            | String "u" (String h1 (String h2 (String h3 (String h4 rest')))) =>
                match getu4 h1 h2 h3 h4 with
                | None => None
                | Some r =>
                    if utf8.between 55296 57343 r then
                      match rest' with
                      | String "\" (String "u" (String a (String b' (String c (String d rest''))))) =>
                          match low_surrogate r rest' with
                          | Some (dec, _) => app (utf8.EncodeRune dec) (unquote 0 rest'')
                          | None => app (utf8.EncodeRune utf8.RuneError) (unquote 0 rest')
                          end
                      | _ => app (utf8.EncodeRune utf8.RuneError) (unquote 0 rest')
                      end
                    else app (utf8.EncodeRune r) (unquote 0 rest')
                end
            | String e rest' =>
                if Ascii.eqb e dquote || Ascii.eqb e "\" || Ascii.eqb e "/"
                then cons e (unquote 0 rest')
                else if Ascii.eqb e "b" then cons "008"%char (unquote 0 rest')
                else if Ascii.eqb e "f" then cons "012"%char (unquote 0 rest')
                else if Ascii.eqb e "n" then cons "010"%char (unquote 0 rest')
                else if Ascii.eqb e "r" then cons "013"%char (unquote 0 rest')
                else if Ascii.eqb e "t" then cons "009"%char (unquote 0 rest')
                else None
            | EmptyString => None
            end
          else if (n <? 128)%N then cons b (unquote 0 rest)
          else
            let '(r, size) := utf8.DecodeRuneInString s in
            if (r =? utf8.RuneError)%N && (size =? 1)
            then app (utf8.EncodeRune utf8.RuneError) (unquote 0 rest)
            else cons b (unquote (size - 1) rest)
      end
  end.

(** The longest prefix of digits. *)
Fixpoint digits (s : string) : string * string :=
  match s with
  | String c rest =>
      if is_digit c then let '(ds, r) := digits rest in (String c ds, r)
      else (EmptyString, s)
  | EmptyString => (EmptyString, s)
  end.

(** A number literal: sign, integer, fraction, exponent. *)
Definition number (s : string) : option (string * string) :=
  let '(sign, s1) :=
    match s with
    | String "-" t => ("-", t)
    | _ => ("", s)
    end in
  let int :=
    match s1 with
    | String "0" t => Some ("0", t)
    | String c _ => if is_digit c then Some (digits s1) else None
    | EmptyString => None
    end in
  match int with
  | None => None
  | Some (i, s2) =>
      let frac :=
        match s2 with
        | String "." t =>
            let '(ds, r) := digits t in
            if String.eqb ds "" then None else Some ("." +:+ ds, r)
        | _ => Some ("", s2)
        end in
      match frac with
      | None => None
      | Some (f, s3) =>
          match s3 with
          | String e t =>
              if Ascii.eqb e "e" || Ascii.eqb e "E" then
                let '(esign, t') :=
                  match t with
                  | String "+" u => ("+", u)
                  | String "-" u => ("-", u)
                  | _ => ("", t)
                  end in
                let '(ds, r) := digits t' in
                if String.eqb ds "" then None
                else Some (sign +:+ i +:+ f +:+ String e esign +:+ ds, r)
              else Some (sign +:+ i +:+ f, s3)
          | EmptyString => Some (sign +:+ i +:+ f, s3)
          end
      end
  end.

(** A value at the start of [s], and the rest. Every call consumes a byte
    before the next one, so [fuel] above the length of [s] is enough. *)
Fixpoint parse_value (fuel : nat) (s : string) : option (value * string) :=
  match fuel with
  | 0 => None
  | S fuel' =>
      match skip_space s with
      | String "{" t =>
          match skip_space t with
          | String "}" r => Some (Object [], r)
          | t' => parse_members fuel' t' []
          end
      | String "[" t =>
          match skip_space t with
          | String "]" r => Some (Array [], r)
          | t' => parse_elements fuel' t' []
          end
      | String c t as s' =>
          if Ascii.eqb c dquote then
            match unquote 0 t with
            | Some (text, r) => Some (Str text, r)
            | None => None
            end
          else if strings.HasPrefix s' "true" then Some (Bool true, slice_from 4 s')
          else if strings.HasPrefix s' "false" then Some (Bool false, slice_from 5 s')
          else if strings.HasPrefix s' "null" then Some (Null, slice_from 4 s')
          else
            match number s' with
            | Some (lit, r) => Some (Number lit, r)
            | None => None
            end
      | EmptyString => None
      end
  end
with parse_members (fuel : nat) (s : string) (acc : list (string * value))
    : option (value * string) :=
  match fuel with
  | 0 => None
  | S fuel' =>
      match skip_space s with
      | String c t =>
          if Ascii.eqb c dquote then
            match unquote 0 t with
            | Some (key, r) =>
                match skip_space r with
                | String ":" r' =>
                    match parse_value fuel' r' with
                    | Some (v, r'') =>
                        match skip_space r'' with
                        | String "," r3 => parse_members fuel' r3 (acc ++ [(key, v)])
                        | String "}" r3 => Some (Object (acc ++ [(key, v)]), r3)
                        | _ => None
                        end
                    | None => None
                    end
                | _ => None
                end
            | None => None
            end
          else None
      | EmptyString => None
      end
  end
with parse_elements (fuel : nat) (s : string) (acc : list value)
    : option (value * string) :=
  match fuel with
  | 0 => None
  | S fuel' =>
      match parse_value fuel' s with
      | Some (v, r) =>
          match skip_space r with
          | String "," r' => parse_elements fuel' r' (acc ++ [v])
          | String "]" r' => Some (Array (acc ++ [v]), r')
          | _ => None
          end
      | None => None
      end
  end.

(** [checkValid] and the scan of the whole input: one value, white space
    around it. *)
Definition parse (data : string) : option value :=
  match parse_value (S (String.length data)) data with
  | Some (v, rest) => if String.eqb (skip_space rest) "" then Some v else None
  | None => None
  end.

(** [foldName]: the key of a member folded for the comparison with the
    name of a field. ASCII letters fold to upper case; of the other runes
    only U+017F and U+212A fold to an ASCII letter (S and K). *)
Fixpoint foldName (s : string) : string :=
  match s with
  | String "197" (String "191" rest) => String "S" (foldName rest)
  | String "226" (String "132" (String "170" rest)) => String "K" (foldName rest)
  | String c rest =>
      let n := N_of_ascii c in
      String (if utf8.between 97 122 n then ascii_of_N (n - 32) else c) (foldName rest)
  | EmptyString => EmptyString
  end.

(** The field a key selects: the tag itself, or the tag up to case. *)
Definition field_is (tag key : string) : bool :=
  String.eqb key tag || String.eqb (foldName key) (foldName tag).

End decode.

(** A value decoded into a field of type [string]: [null] leaves the field
    as it is, a string sets it, anything else is an [UnmarshalTypeError]. *)
Definition decode_string (old : string) (v : decode.value) : string + error :=
  match v with
  | decode.Null => inl old
  | decode.Str s => inl s
  | _ => inr "json: cannot unmarshal value into Go struct field of type string"
  end.

(** A member of an object decoded into a [ModuleInfo]: the key selects the
    field by its [json] tag; a key that selects none is skipped. *)
Definition decode_ModuleInfo_member (acc : ModuleInfo + error) (kv : string * decode.value)
    : ModuleInfo + error :=
  match acc with
  | inr err => inr err
  | inl m =>
      let '(key, v) := kv in
      if decode.field_is "name" key then
        match decode_string (Name m) v with
        | inl s => inl {| Name := s; Source := Source m; Version := Version m; Config := Config m |}
        | inr err => inr err
        end
      else if decode.field_is "source" key then
        match decode_string (Source m) v with
        | inl s => inl {| Name := Name m; Source := s; Version := Version m; Config := Config m |}
        | inr err => inr err
        end
      else if decode.field_is "version" key then
        match decode_string (Version m) v with
        | inl s => inl {| Name := Name m; Source := Source m; Version := s; Config := Config m |}
        | inr err => inr err
        end
      else if decode.field_is "config" key then
        match decode_string (Config m) v with
        | inl s => inl {| Name := Name m; Source := Source m; Version := Version m; Config := s |}
        | inr err => inr err
        end
      else inl m
  end.

Definition ModuleInfo_zero : ModuleInfo :=
  {| Name := ""; Source := ""; Version := ""; Config := "" |}.

(** An element of the array decoded into a new element of the slice. *)
Definition decode_ModuleInfo (v : decode.value) : ModuleInfo + error :=
  match v with
  | decode.Null => inl ModuleInfo_zero
  | decode.Object members => foldl decode_ModuleInfo_member (inl ModuleInfo_zero) members
  | _ => inr "json: cannot unmarshal value into Go value of type main.ModuleInfo"
  end.

Fixpoint decode_Modules (vs : list decode.value) : list ModuleInfo + error :=
  match vs with
  | [] => inl []
  | v :: rest =>
      match decode_ModuleInfo v, decode_Modules rest with
      | inl m, inl ms => inl (m :: ms)
      | inr err, _ => inr err
      | _, inr err => inr err
      end
  end.

(** A member of the top-level object decoded into an [SBOM]. [XMLName] has
    the tag ["-"] and is never selected. A second array for [modules] would
    be decoded into the elements of the first; such documents are outside
    this model and are rejected. *)
Definition decode_SBOM_member (acc : SBOM + error) (kv : string * decode.value)
    : SBOM + error :=
  match acc with
  | inr err => inr err
  | inl sbom =>
      let '(key, v) := kv in
      if decode.field_is "modules" key then
        match v with
        | decode.Null => inl {| XMLName := XMLName sbom; Modules := [] |}
        | decode.Array vs =>
            match Modules sbom with
            | [] =>
                match decode_Modules vs with
                | inl ms => inl {| XMLName := XMLName sbom; Modules := ms |}
                | inr err => inr err
                end
            | _ => inr "not modelled: the key modules is repeated"
            end
        | _ => inr "json: cannot unmarshal value into Go struct field SBOM.modules of type []main.ModuleInfo"
        end
      else inl sbom
  end.

(** [var result SBOM; err = json.Unmarshal(content, &result)]: the value of
    [result], or the error. *)
Definition json_Unmarshal (content : string) : SBOM + error :=
  match decode.parse content with
  | None => inr "invalid character or unexpected end of JSON input"
  | Some decode.Null => inl SBOM_zero
  | Some (decode.Object members) => foldl decode_SBOM_member (inl SBOM_zero) members
  | Some _ => inr "json: cannot unmarshal value into Go value of type main.SBOM"
  end.

(** ** Notions used to state the properties *)

(** [first_occurrence sep s pre rest]: [s] is [pre], then [sep], then
    [rest], and no instance of [sep] in [s] starts before this one. *)
Definition first_occurrence (sep s pre rest : string) : Prop :=
  s = pre +:+ sep +:+ rest
  ∧ ∀ pre' rest', s = pre' +:+ sep +:+ rest' → String.length pre ≤ String.length pre'.

(** The bytes of [s] before its first instance of [sep]; all of [s] when
    it has none. *)
Definition before (sep s : string) : string :=
  match strings.Index s sep with
  | Some k => slice_to k s
  | None => s
  end.

(** ** Module calls used as examples *)

Definition call_vpc : tfconfig.ModuleCall :=
  {| tfconfig.Name := "aws_vpc";
     tfconfig.Source := "git::https://github.com/terraform-aws-modules/vpc.git?ref=v2.0.0";
     tfconfig.Version := "" |}.

Definition call_s3 : tfconfig.ModuleCall :=
  {| tfconfig.Name := "s3_bucket";
     tfconfig.Source := "hashicorp/aws";
     tfconfig.Version := "" |}.

Definition call_pinned : tfconfig.ModuleCall :=
  {| tfconfig.Name := "consul";
     tfconfig.Source := "git::https://example.com/consul.git?ref=v0.1.0";
     tfconfig.Version := "0.11.0" |}.

Definition call_local : tfconfig.ModuleCall :=
  {| tfconfig.Name := "net";
     tfconfig.Source := "../modules/net";
     tfconfig.Version := "" |}.

Definition call_two_refs : tfconfig.ModuleCall :=
  {| tfconfig.Name := "m";
     tfconfig.Source := "a?ref=b?ref=c";
     tfconfig.Version := "" |}.

Definition call_empty_ref : tfconfig.ModuleCall :=
  {| tfconfig.Name := "vpc";
     tfconfig.Source := "./modules/vpc?ref=";
     tfconfig.Version := "" |}.

(** The record [generateSBOM] builds for a module call. *)
Definition ModuleInfo_of (configPath : string) (modCall : tfconfig.ModuleCall) : ModuleInfo :=
  {| Name := tfconfig.Name modCall;
     Source := tfconfig.Source modCall;
     Version := extractVersion modCall;
     Config := configPath |}.

(** ** A loader used as example

    The directory [path] holds the module calls [aws_vpc] and [s3_bucket];
    any other directory fails to load. Diagnostics are the summaries of
    the errors. *)

Definition example_module : tfconfig.Module :=
  {| tfconfig.ModuleCalls := {[ "aws_vpc" := call_vpc; "s3_bucket" := call_s3 ]} |}.

Definition example_loader : tfconfig.Loader :=
  {| tfconfig.Diagnostics := list string;
     tfconfig.HasErrors diags := negb (bool_decide (diags = []));
     tfconfig.Err diags := Join diags "; ";
     tfconfig.LoadModule dir :=
       if String.eqb dir "path" then (example_module, [])
       else ({| tfconfig.ModuleCalls := ∅ |},
             ["Failed to read module directory: Module directory " +:+ dir
              +:+ " does not exist or cannot be read."]) |}.

Definition sbom_vpc_s3 : SBOM :=
  {| XMLName := {| xml.Space := ""; xml.Local := "" |};
     Modules := [ {| Name := "aws_vpc";
                     Source := "git::https://github.com/terraform-aws-modules/vpc.git?ref=v2.0.0";
                     Version := "v2.0.0";
                     Config := "path" |};
                  {| Name := "s3_bucket";
                     Source := "hashicorp/aws";
                     Version := "N/A";
                     Config := "path" |} ] |}.

Definition sbom_s3_vpc : SBOM :=
  {| XMLName := XMLName sbom_vpc_s3; Modules := reverse (Modules sbom_vpc_s3) |}.

(** The bytes of a sequence of CSV records. *)
Fixpoint csv_lines (records : list (list string)) : string :=
  match records with
  | [] => EmptyString
  | record :: rest => csv.record_bytes record +:+ csv_lines rest
  end.

(** A world without files. *)
Definition empty_world : os.World := {| os.files := ∅; os.stdout := "" |}.

(** ** The rest of [main.go]: [printSBOM] and [main] *)

(** [func printSBOM(sbom *SBOM)] *)
Definition printSBOM_module (w : os.World) (mod_ : ModuleInfo) : os.World :=
  let w := fmt.Printf ("Config Path: " +:+ Config mod_ +:+ LF) w in
  let w := fmt.Printf ("Module Name: " +:+ Name mod_ +:+ LF) w in
  let w := fmt.Printf ("Source: " +:+ Source mod_ +:+ LF) w in
  fmt.Printf ("Version: " +:+ Version mod_ +:+ LF +:+ LF) w.

Definition printSBOM (sbom : SBOM) (w : os.World) : os.World :=
  let w := fmt.Printf ("Software Bill of Materials (SBOM) for Terraform configuration" +:+ LF) w in
  let w := fmt.Printf ("-----------------------------------------------------------" +:+ LF) w in
  foldl printSBOM_module w (Modules sbom).

(** ** Package [path/filepath] (Unix) *)

Module filepath.

Definition is_separator (c : ascii) : bool := Ascii.eqb c "/".

(** [for len(path) > 0 && os.IsPathSeparator(path[len(path)-1]) { path = path[0 : len(path)-1] }] *)
Fixpoint strip_trailing (path : string) : string :=
  match path with
  | EmptyString => EmptyString
  | String c rest =>
      let rest' := strip_trailing rest in
      if is_separator c && String.eqb rest' "" then EmptyString else String c rest'
  end.

Fixpoint has_separator (path : string) : bool :=
  match path with
  | EmptyString => false
  | String c rest => is_separator c || has_separator rest
  end.

(** [path[i+1:]] for the index [i] of the last separator; all of [path]
    when it has none. *)
Fixpoint last_element (path : string) : string :=
  match path with
  | EmptyString => EmptyString
  | String c rest =>
      if has_separator rest then last_element rest
      else if is_separator c then rest
      else path
  end.

(** [func Base(path string) string]: the last element of the path, after
    the trailing slashes are removed; [.] for the empty path and [/] for a
    path of slashes only. *)
Definition Base (path : string) : string :=
  if String.eqb path "" then "."
  else
    let last := last_element (strip_trailing path) in
    if String.eqb last "" then "/" else last.

End filepath.

(** ** Package [flag], for the two flags that [main] defines *)

Module flag.

(** The values of [*verbose] and [*outputFormat]. *)
Record values := {
  verbose : bool;
  outputFormat : string;
}.

(** [flag.Bool("v", false, ...)] and [flag.String("output", "csv", ...)] *)
Definition defaults : values := {| verbose := false; outputFormat := "csv" |}.

(** How [flag.Parse] ends: the flags are parsed and [rest] are the
    arguments that remain ([flag.Args()]); or [-h]/[-help] was given and
    the program exits with status 0; or an argument is not a valid flag and
    the program exits with status 2. *)
Inductive parsed :=
  | Done (v : values) (rest : list string)
  | Help
  | Failed.

(** [strconv.ParseBool] *)
Definition ParseBool (str : string) : option bool :=
  if String.eqb str "1" || String.eqb str "t" || String.eqb str "T"
     || String.eqb str "TRUE" || String.eqb str "true" || String.eqb str "True"
  then Some true
  else if String.eqb str "0" || String.eqb str "f" || String.eqb str "F"
          || String.eqb str "FALSE" || String.eqb str "false" || String.eqb str "False"
  then Some false
  else None.

(** The name of a flag and its value, when the argument has the form
    [name=value]; the sign [=] cannot be the first byte of the name. *)
Fixpoint split_value (name : string) : string * option string :=
  match name with
  | EmptyString => (EmptyString, None)
  | String c rest =>
      match rest with
      | String "=" value => (String c EmptyString, Some value)
      | _ => let '(n, v) := split_value rest in (String c n, v)
      end
  end.

(** The name in an argument that starts a flag: [None] when the argument
    is not a flag ([len(s) < 2 || s[0] != '-']), [Some None] for the
    terminator [--], [Some (Some name)] otherwise. *)
Definition flag_name (s : string) : option (option string) :=
  match s with
  | String "-" (String "-" EmptyString) => Some None
  | String "-" (String "-" name) => Some (Some name)
  | String "-" (String c name) => Some (Some (String c name))
  | _ => None
  end.

(** [flag.Parse()]: the loop over [parseOne], on [os.Args[1:]]. *)
Fixpoint Parse (v : values) (args : list string) : parsed :=
  match args with
  | [] => Done v []
  | s :: rest =>
      match flag_name s with
      | None => Done v args
      | Some None => Done v rest
      | Some (Some name) =>
          if String.eqb name "" || strings.HasPrefix name "-" || strings.HasPrefix name "="
          then Failed
          else
            let '(name, value) := split_value name in
            if String.eqb name "v" then
              match value with
              | Some text =>
                  match ParseBool text with
                  | Some b => Parse {| verbose := b; outputFormat := outputFormat v |} rest
                  | None => Failed
                  end
              | None => Parse {| verbose := true; outputFormat := outputFormat v |} rest
              end
            else if String.eqb name "output" then
              match value with
              | Some text => Parse {| verbose := verbose v; outputFormat := text |} rest
              | None =>
                  match rest with
                  | text :: rest' => Parse {| verbose := verbose v; outputFormat := text |} rest'
                  | [] => Failed
                  end
              end
            else if String.eqb name "help" || String.eqb name "h" then Help
            else Failed
      end
  end.

End flag.

(** ** [strings.ToLower] *)

Fixpoint isASCII (s : string) : bool :=
  match s with
  | EmptyString => true
  | String c rest => (N_of_ascii c <? 128)%N && isASCII rest
  end.

(** The ASCII branch of [ToLower]: [c += 'a' - 'A'] for the upper case
    letters. *)
Fixpoint lower_ASCII (s : string) : string :=
  match s with
  | EmptyString => EmptyString
  | String c rest =>
      let n := N_of_ascii c in
      String (if utf8.between 65 90 n then ascii_of_N (n + 32) else c) (lower_ASCII rest)
  end.

Section ToLower.

(** [unicode.ToLower], whose tables are not reproduced. *)
Variable unicode_ToLower : N → N.

(** [strings.Map(unicode.ToLower, s)]: every rune of [s] is replaced by the
    encoding of its image; a byte that is no valid encoding counts as the
    rune [RuneError]. [skip] counts the remaining bytes of the rune decoded
    last. *)
Fixpoint Map_ToLower (skip : nat) (s : string) : string :=
  match s with
  | EmptyString => EmptyString
  | String _ rest =>
      match skip with
      | S k => Map_ToLower k rest
      | 0 =>
          let '(r, size) := utf8.DecodeRuneInString s in
          utf8.EncodeRune (unicode_ToLower r) +:+ Map_ToLower (size - 1) rest
      end
  end.

(** [func ToLower(s string) string] *)
Definition ToLower (s : string) : string :=
  if isASCII s then lower_ASCII s else Map_ToLower 0 s.

End ToLower.

(** ** [func main()] *)

(** How the program ends: [main] returns (status 0); [log.Fatalf] prints
    the message and exits with status 1; [flag.Parse] exits with status 0
    after [-h] or with status 2 after a bad flag; [Panic] is the nil
    dereference that would follow a [generateSBOM] returning neither an
    SBOM nor an error. What goes to standard error besides the message of
    [log.Fatalf] is not modelled. *)
Inductive exit :=
  | Return
  | Fatalf (message : string)
  | FlagHelp
  | FlagError
  | Panic.

Definition exit_status (e : exit) : nat :=
  match e with
  | Return | FlagHelp => 0
  | Fatalf _ => 1
  | FlagError | Panic => 2
  end.

Section Main.

Context `{tfconfig.Loader}.
Variable unicode_ToLower : N → N.

(** [main] after [flag.Parse()], in the run where the loop of
    [generateSBOM] yields [calls]; [prog] is [os.Args[0]]. *)
Definition main_parsed (calls : list tfconfig.ModuleCall) (prog : string)
    (v : flag.values) (rest : list string) (w : os.World) : os.World * exit :=
  if length rest <? 2 then
    (w, Fatalf ("Usage: " +:+ filepath.Base prog
                +:+ " <path-to-terraform-config> <output-file>"))
  else
    let configPath := nth 0 rest "" in
    let outputPath := nth 1 rest "" in
    match generateSBOM_run calls configPath with
    | (_, Some err) => (w, Fatalf ("Error generating SBOM: " +:+ err))
    | (None, None) => (w, Panic)
    | (Some sbom, None) =>
        let w := if flag.verbose v then printSBOM sbom w else w in
        let format := ToLower unicode_ToLower (flag.outputFormat v) in
        let written :=
          if String.eqb format "csv" then Some (writeSBOMToCSV sbom outputPath w)
          else if String.eqb format "json" then Some (writeSBOMToJSON sbom outputPath w)
          else if String.eqb format "xml" then Some (writeSBOMToXML sbom outputPath w)
          else None in
        match written with
        | None =>
            (w, Fatalf ("Unsupported output format: " +:+ flag.outputFormat v
                        +:+ ". Supported formats are: csv, json, xml"))
        | Some (w, Some err) => (w, Fatalf ("Error writing SBOM: " +:+ err))
        | Some (w, None) => (w, Return)
        end
    end.

(** [func main()] on the arguments [os.Args = prog :: arguments]. *)
Definition main_run (calls : list tfconfig.ModuleCall) (prog : string)
    (arguments : list string) (w : os.World) : os.World * exit :=
  match flag.Parse flag.defaults arguments with
  | flag.Help => (w, FlagHelp)
  | flag.Failed => (w, FlagError)
  | flag.Done v rest => main_parsed calls prog v rest w
  end.

(** [main prog arguments w r]: the program started in the world [w] can
    end as [r]. The loop of [generateSBOM] visits the module calls of the
    directory named by the first positional argument. *)
Inductive main (prog : string) (arguments : list string) (w : os.World)
    : os.World * exit → Prop :=
  | main_intro calls :
      (∀ v configPath rest,
         flag.Parse flag.defaults arguments = flag.Done v (configPath :: rest) →
         map_range (tfconfig.ModuleCalls (tfconfig.LoadModule configPath).1) calls) →
      main prog arguments w (main_run calls prog arguments w).

End Main.

(** A loader without errors: the directory [empty] has no module call,
    every other directory the single call [net]. *)
Definition small_loader : tfconfig.Loader :=
  {| tfconfig.Diagnostics := list string;
     tfconfig.HasErrors diags := negb (bool_decide (diags = []));
     tfconfig.Err diags := Join diags "; ";
     tfconfig.LoadModule dir :=
       if String.eqb dir "empty" then ({| tfconfig.ModuleCalls := ∅ |}, [])
       else ({| tfconfig.ModuleCalls := {[ "net" := call_local ]} |}, []) |}.

Definition sbom_net : SBOM :=
  {| XMLName := XMLName SBOM_zero;
     Modules := [ {| Name := "net"; Source := "../modules/net";
                     Version := "local"; Config := "one" |} ] |}.

(** Worlds where the path [out] is a directory, and a file with a line
    that is not the header of the program. *)
Definition world_with_dir : os.World :=
  {| os.files := {[ "out" := os.Dir ]}; os.stdout := "" |}.

Definition world_with_file : os.World :=
  {| os.files := {[ "out" := os.File ("stale,header" +:+ LF) ]}; os.stdout := "" |}.

(** The formats that [main] knows, and two settings of the flags that
    select the same emitter: the same [-v], and formats that are equal or
    have the same supported lower case. *)
Definition supported (format : string) : bool :=
  String.eqb format "csv" || String.eqb format "json" || String.eqb format "xml".

Definition same_format (unicode_ToLower : N → N) (v1 v2 : flag.values) : Prop :=
  flag.verbose v1 = flag.verbose v2
  ∧ (flag.outputFormat v1 = flag.outputFormat v2
     ∨ (ToLower unicode_ToLower (flag.outputFormat v1)
        = ToLower unicode_ToLower (flag.outputFormat v2)
        ∧ supported (ToLower unicode_ToLower (flag.outputFormat v1)) = true)).

(** ** The layout of the JSON file *)

(** A record whose four fields are ASCII. *)
Definition ascii_fields (m : ModuleInfo) : bool :=
  isASCII (Name m) && isASCII (Source m) && isASCII (Version m) && isASCII (Config m).

(** The text of a record in the file: an object on six lines, its keys
    indented by six spaces and its closing brace by four. *)
Definition json_pretty_module (m : ModuleInfo) : string :=
  "{" +:+ LF
  +:+ "      " +:+ json.appendString "name" +:+ ": " +:+ json.appendString (Name m) +:+ "," +:+ LF
  +:+ "      " +:+ json.appendString "source" +:+ ": " +:+ json.appendString (Source m) +:+ "," +:+ LF
  +:+ "      " +:+ json.appendString "version" +:+ ": " +:+ json.appendString (Version m) +:+ "," +:+ LF
  +:+ "      " +:+ json.appendString "config" +:+ ": " +:+ json.appendString (Config m) +:+ LF
  +:+ "    }".

(** The text of the whole file. *)
Definition json_pretty (sbom : SBOM) : string :=
  match Modules sbom with
  | [] => "{" +:+ LF +:+ "  " +:+ json.appendString "modules" +:+ ": null" +:+ LF +:+ "}" +:+ LF
  | mods =>
      "{" +:+ LF +:+ "  " +:+ json.appendString "modules" +:+ ": [" +:+ LF
      +:+ "    " +:+ Join (json_pretty_module <$> mods) ("," +:+ LF +:+ "    ") +:+ LF
      +:+ "  ]" +:+ LF +:+ "}" +:+ LF
  end.

(** ** The indenter and the decoder step by step

    [indent_step] is the body of the loop of [appendIndent] for one byte:
    what it writes and the next state; [indent_run] runs it over a string. *)

Definition indent_step (prefix indent : string) (st : json.indent_state) (c : ascii)
    : string * json.indent_state :=
  if json.in_string st then
    (String c EmptyString,
     if json.escaped st then
       {| json.in_string := true; json.escaped := false;
          json.needIndent := json.needIndent st;
          json.depth := json.depth st; json.nesting := json.nesting st |}
     else
       {| json.in_string := negb (Ascii.eqb c dquote); json.escaped := Ascii.eqb c "\";
          json.needIndent := json.needIndent st;
          json.depth := json.depth st; json.nesting := json.nesting st |})
  else if json.is_space c then
    (if (json.nesting st =? 0) then String c EmptyString else EmptyString, st)
  else
    let closing := Ascii.eqb c "}" || Ascii.eqb c "]" in
    let opening := Ascii.eqb c "{" || Ascii.eqb c "[" in
    let indent_now := json.needIndent st && negb closing in
    let d := if indent_now then S (json.depth st) else json.depth st in
    let pre := if indent_now then json.appendNewline prefix indent d else EmptyString in
    let need := if indent_now then false else json.needIndent st in
    if opening then
      (pre +:+ String c EmptyString,
       {| json.in_string := false; json.escaped := false; json.needIndent := true;
          json.depth := d; json.nesting := S (json.nesting st) |})
    else if Ascii.eqb c "," then
      (pre +:+ String c (json.appendNewline prefix indent d),
       {| json.in_string := false; json.escaped := false; json.needIndent := need;
          json.depth := d; json.nesting := json.nesting st |})
    else if Ascii.eqb c ":" then
      (pre +:+ String c (String " " EmptyString),
       {| json.in_string := false; json.escaped := false; json.needIndent := need;
          json.depth := d; json.nesting := json.nesting st |})
    else if closing then
      if need then
        (String c EmptyString,
         {| json.in_string := false; json.escaped := false; json.needIndent := false;
            json.depth := d; json.nesting := pred (json.nesting st) |})
      else
        (json.appendNewline prefix indent (pred d) +:+ String c EmptyString,
         {| json.in_string := false; json.escaped := false; json.needIndent := false;
            json.depth := pred d; json.nesting := pred (json.nesting st) |})
    else
      (pre +:+ String c EmptyString,
       {| json.in_string := Ascii.eqb c dquote; json.escaped := false;
          json.needIndent := need; json.depth := d; json.nesting := json.nesting st |}).

Fixpoint indent_run (prefix indent : string) (st : json.indent_state) (src : string)
    : string * json.indent_state :=
  match src with
  | EmptyString => (EmptyString, st)
  | String c rest =>
      let '(out, st') := indent_step prefix indent st c in
      let '(out', st'') := indent_run prefix indent st' rest in
      (out +:+ out', st'')
  end.

(** The JSON value that stands for a record. *)
Definition json_value_of (m : ModuleInfo) : decode.value :=
  decode.Object [("name", decode.Str (Name m)); ("source", decode.Str (Source m));
                 ("version", decode.Str (Version m)); ("config", decode.Str (Config m))].


(** ** The layout of the XML file *)

(** The text of a field and of a record in the file. *)
Definition xml_field (name s : string) : string :=
  LF +:+ "      <" +:+ name +:+ ">" +:+ xml.EscapeString_loop 0 true s
  +:+ "</" +:+ name +:+ ">".

Definition xml_pretty_module (m : ModuleInfo) : string :=
  LF +:+ "    <Module>"
  +:+ xml_field "Name" (Name m) +:+ xml_field "Source" (Source m)
  +:+ xml_field "Version" (Version m) +:+ xml_field "ConfigPath" (Config m)
  +:+ LF +:+ "    </Module>".


(** * Properties *)

(** ** Byte strings *)

Lemma append_assoc (a b c : string) : (a +:+ b) +:+ c = a +:+ (b +:+ c).
Proof. induction a as [|x a IH]; [reflexivity | simpl; f_equal; exact IH]. Qed.

Lemma append_nil_r (a : string) : a +:+ "" = a.
Proof. induction a as [|x a IH]; [reflexivity | simpl; f_equal; exact IH]. Qed.

Lemma length_append (a b : string) :
  String.length (a +:+ b) = String.length a + String.length b.
Proof. induction a as [|x a IH]; [reflexivity | simpl; f_equal; exact IH]. Qed.

Lemma slice_to_append (a b : string) : slice_to (String.length a) (a +:+ b) = a.
Proof. induction a as [|x a IH]; [reflexivity | simpl; f_equal; exact IH]. Qed.

Lemma slice_from_append (a b : string) : slice_from (String.length a) (a +:+ b) = b.
Proof. induction a as [|x a IH]; simpl; [reflexivity | exact IH]. Qed.

Lemma slice_to_from (n : nat) (s : string) : slice_to n s +:+ slice_from n s = s.
Proof.
  revert s; induction n as [|n IH]; intros [|c s]; simpl; try reflexivity.
  now rewrite IH.
Qed.

Lemma length_slice_to (n : nat) (s : string) :
  n ≤ String.length s → String.length (slice_to n s) = n.
Proof.
  revert s; induction n as [|n IH]; intros [|c s]; simpl; intros Hn; try lia.
  rewrite IH; lia.
Qed.

Lemma length_slice_from (n : nat) (s : string) :
  String.length (slice_from n s) = String.length s - n.
Proof.
  revert s; induction n as [|n IH]; intros [|c s]; simpl; try lia.
  apply IH.
Qed.

Lemma slice_from_add (n k : nat) (s : string) :
  slice_from (n + k) s = slice_from k (slice_from n s).
Proof.
  revert s; induction n as [|n IH]; intros [|c s]; simpl; try reflexivity.
  - now destruct k.
  - apply IH.
Qed.

(** ** [strings.HasPrefix] and [strings.Index] *)

Lemma HasPrefix_app (p t : string) : strings.HasPrefix (p +:+ t) p = true.
Proof.
  unfold strings.HasPrefix. rewrite slice_to_append, String.eqb_refl, length_append.
  rewrite andb_true_r. apply Nat.leb_le. lia.
Qed.

Lemma HasPrefix_true (s p : string) :
  strings.HasPrefix s p = true → s = p +:+ slice_from (String.length p) s.
Proof.
  unfold strings.HasPrefix. intros [_ Heq%String.eqb_eq]%andb_true_iff.
  rewrite <- Heq at 1. symmetry. apply slice_to_from.
Qed.

Lemma HasPrefix_iff (s p : string) :
  strings.HasPrefix s p = true ↔ ∃ t, s = p +:+ t.
Proof.
  split.
  - intros Hp. eexists. now apply HasPrefix_true.
  - intros [t ->]. apply HasPrefix_app.
Qed.

Lemma Index_first_occurrence (s sep : string) (m : nat) :
  strings.Index s sep = Some m →
  first_occurrence sep s (slice_to m s) (slice_from (m + String.length sep) s)
  ∧ m + String.length sep ≤ String.length s.
Proof.
  revert m; induction s as [|c s IH]; intros m; simpl.
  - destruct (strings.HasPrefix "" sep) eqn:Hp; [|discriminate].
    intros [= <-]. apply HasPrefix_true in Hp. simpl.
    destruct sep; [|discriminate]. repeat split; simpl; [|lia..].
    intros pre' rest' _. lia.
  - destruct (strings.HasPrefix (String c s) sep) eqn:Hp.
    + intros [= <-]. simpl. split; [split|].
      * now apply HasPrefix_true.
      * intros; simpl; lia.
      * apply HasPrefix_true in Hp. apply (f_equal String.length) in Hp.
        rewrite length_append in Hp. simpl in *. lia.
    + destruct (strings.Index s sep) as [k|] eqn:Hk; [|discriminate].
      intros [= <-]. destruct (IH k eq_refl) as [[Heq Hmin] Hlen].
      simpl. split; [split|].
      * simpl. now rewrite <- Heq.
      * intros [|c' pre'] rest' Hs.
        -- exfalso. simpl in Hs. rewrite Hs, HasPrefix_app in Hp. discriminate.
        -- simpl in Hs. injection Hs as -> Hs. apply Hmin in Hs.
           rewrite length_slice_to in Hs by lia.
           simpl. rewrite length_slice_to by lia. lia.
      * lia.
Qed.

Lemma Index_None (s sep pre rest : string) :
  strings.Index s sep = None → s ≠ pre +:+ sep +:+ rest.
Proof.
  revert pre; induction s as [|c s IH]; intros pre; simpl.
  - destruct (strings.HasPrefix "" sep) eqn:Hp; [discriminate|].
    intros _ Hs. destruct pre; [|discriminate]. simpl in Hs.
    rewrite Hs, HasPrefix_app in Hp. discriminate.
  - destruct (strings.HasPrefix (String c s) sep) eqn:Hp; [discriminate|].
    destruct (strings.Index s sep) eqn:Hk; [discriminate|]. intros _ Hs.
    destruct pre as [|c' pre]; simpl in Hs.
    + rewrite Hs, HasPrefix_app in Hp. discriminate.
    + injection Hs as _ Hs. now apply (IH pre).
Qed.

Lemma first_occurrence_Index (sep s pre rest : string) :
  first_occurrence sep s pre rest → strings.Index s sep = Some (String.length pre).
Proof.
  intros [Hs Hmin]. destruct (strings.Index s sep) as [m|] eqn:Hm.
  - destruct (Index_first_occurrence _ _ _ Hm) as [[Hs' Hmin'] Hlen].
    apply Hmin in Hs'. apply Hmin' in Hs.
    rewrite length_slice_to in Hs, Hs' by lia. f_equal. lia.
  - exfalso. now apply (Index_None _ _ pre rest) in Hm.
Qed.

Lemma first_occurrence_unique (sep s pre rest pre' rest' : string) :
  first_occurrence sep s pre rest → first_occurrence sep s pre' rest' →
  pre = pre' ∧ rest = rest'.
Proof.
  intros H1 H2.
  pose proof (first_occurrence_Index _ _ _ _ H1) as E1.
  pose proof (first_occurrence_Index _ _ _ _ H2) as E2.
  rewrite E1 in E2. injection E2 as Hlen.
  destruct H1 as [Hs1 _], H2 as [Hs2 _].
  assert (pre = pre') as <-.
  { rewrite <- (slice_to_append pre (sep +:+ rest)), <- Hs1, Hlen, Hs2.
    apply slice_to_append. }
  split; [reflexivity|].
  rewrite Hs1 in Hs2. apply String.app_inj in Hs2. now apply String.app_inj in Hs2.
Qed.

Lemma Contains_true (s sep : string) :
  strings.Contains s sep = true ↔ ∃ pre rest, first_occurrence sep s pre rest.
Proof.
  unfold strings.Contains. split.
  - destruct (strings.Index s sep) as [m|] eqn:Hm; [|discriminate]. intros _.
    do 2 eexists. apply (Index_first_occurrence _ _ _ Hm).
  - intros (pre & rest & Hf). now rewrite (first_occurrence_Index _ _ _ _ Hf).
Qed.

Lemma Contains_false (s sep : string) :
  strings.Contains s sep = false ↔ ∀ pre rest, s ≠ pre +:+ sep +:+ rest.
Proof.
  unfold strings.Contains. split.
  - destruct (strings.Index s sep) as [m|] eqn:Hm; [discriminate|]. intros _ pre rest.
    now apply Index_None.
  - intros Hno. destruct (strings.Index s sep) as [m|] eqn:Hm; [|reflexivity].
    destruct (Index_first_occurrence _ _ _ Hm) as [[Hs _] _]. now apply Hno in Hs.
Qed.

(** ** [strings.Count] and [strings.Split] *)

Lemma Index_empty (sep : string) : sep ≠ "" → strings.Index "" sep = None.
Proof. destruct sep; [congruence | reflexivity]. Qed.

Lemma Index_HasPrefix (s sep : string) :
  strings.HasPrefix s sep = true → strings.Index s sep = Some 0.
Proof. intros Hp. destruct s; simpl; now rewrite Hp. Qed.

Lemma Count_loop_le (fuel : nat) (s sep : string) : strings.Count_loop fuel s sep ≤ fuel.
Proof.
  revert s; induction fuel as [|fuel IH]; intros s; simpl; [lia|].
  destruct (strings.Index s sep); [|lia]. specialize (IH (slice_from (n + String.length sep) s)). lia.
Qed.

Lemma Count_loop_fuel (f1 f2 : nat) (s sep : string) :
  sep ≠ "" → String.length s ≤ f1 → String.length s ≤ f2 →
  strings.Count_loop f1 s sep = strings.Count_loop f2 s sep.
Proof.
  intros Hsep. destruct sep as [|c sep]; [congruence|].
  revert f2 s; induction f1 as [|f1 IH]; intros f2 s H1 H2.
  - destruct s; simpl in H1; [|lia]. now destruct f2.
  - destruct f2 as [|f2].
    + destruct s; simpl in H2; [|lia]. reflexivity.
    + cbn [strings.Count_loop].
      destruct (strings.Index s (String c sep)) as [i|] eqn:Hi; [|reflexivity].
      f_equal. apply IH; rewrite length_slice_from; simpl; lia.
Qed.

Lemma Count_None (s sep : string) : strings.Index s sep = None → strings.Count s sep = 0.
Proof.
  intros Hi. unfold strings.Count. destruct (String.length s); simpl; [reflexivity|].
  now rewrite Hi.
Qed.

Lemma Count_Some (s sep : string) (m : nat) :
  sep ≠ "" → strings.Index s sep = Some m →
  strings.Count s sep = S (strings.Count (slice_from (m + String.length sep) s) sep).
Proof.
  intros Hsep Hi. unfold strings.Count.
  destruct (Index_first_occurrence _ _ _ Hi) as [_ Hlen].
  destruct sep as [|c sep]; [congruence|]. simpl in Hlen.
  destruct (String.length s) as [|n] eqn:Hn; [lia|]. simpl. rewrite Hi. f_equal.
  apply Count_loop_fuel; [discriminate|..]; rewrite length_slice_from; simpl; lia.
Qed.

Lemma Split_None (s sep : string) : strings.Index s sep = None → strings.Split s sep = [s].
Proof.
  intros Hi. unfold strings.Split. rewrite (Count_None _ _ Hi). reflexivity.
Qed.

Lemma Split_Some (s sep : string) (m : nat) :
  sep ≠ "" → strings.Index s sep = Some m →
  strings.Split s sep
  = slice_to m s :: strings.Split (slice_from (m + String.length sep) s) sep.
Proof.
  intros Hsep Hi. unfold strings.Split. rewrite (Count_Some _ _ _ Hsep Hi).
  set (rest := slice_from (m + String.length sep) s).
  pose proof (Count_loop_le (String.length rest) rest sep) as Hle.
  fold (strings.Count rest sep) in Hle.
  destruct (Index_first_occurrence _ _ _ Hi) as [_ Hlen].
  assert (String.length rest < String.length s) as Hlt.
  { unfold rest. rewrite length_slice_from. destruct sep; [congruence|]. simpl in *. lia. }
  rewrite (Nat.min_l (S _)) by lia. rewrite (Nat.min_l (strings.Count rest sep)) by lia.
  simpl. now rewrite Hi.
Qed.

(** The second element of [Split]: the bytes between the first instance of
    the separator and the next one. *)
Lemma Split_second (s sep : string) (m : nat) :
  sep ≠ "" → strings.Index s sep = Some m →
  let parts := strings.Split s sep in
  (1 <? length parts) = true
  ∧ nth 1 parts "" = before sep (slice_from (m + String.length sep) s).
Proof.
  intros Hsep Hi. simpl. rewrite (Split_Some _ _ _ Hsep Hi). unfold before.
  destruct (strings.Index (slice_from _ s) sep) as [k|] eqn:Hk.
  - rewrite (Split_Some _ _ _ Hsep Hk). split; reflexivity.
  - rewrite (Split_None _ _ Hk). split; reflexivity.
Qed.

Lemma before_cases (sep s : string) :
  (strings.Contains s sep = false ∧ before sep s = s)
  ∨ (∃ tail, first_occurrence sep s (before sep s) tail).
Proof.
  unfold before, strings.Contains.
  destruct (strings.Index s sep) as [k|] eqn:Hk; [right|left; split; reflexivity].
  eexists. apply (Index_first_occurrence _ _ _ Hk).
Qed.

Lemma before_empty (sep s : string) :
  sep ≠ "" → before sep s = "" ↔ s = "" ∨ strings.HasPrefix s sep = true.
Proof.
  intros Hsep. unfold before. split.
  - destruct (strings.Index s sep) as [k|] eqn:Hk; [|now left].
    destruct (Index_first_occurrence _ _ _ Hk) as [[Hs _] Hlen]. intros He.
    right. rewrite He in Hs. simpl in Hs. rewrite Hs. apply HasPrefix_app.
  - intros [->|Hp].
    + now rewrite Index_empty.
    + now rewrite (Index_HasPrefix _ _ Hp).
Qed.

(** ** [extractVersion] *)

Lemma extractVersion_explicit (modCall : tfconfig.ModuleCall) :
  tfconfig.Version modCall ≠ "" → extractVersion modCall = tfconfig.Version modCall.
Proof.
  intros Hv. unfold extractVersion. apply String.eqb_neq in Hv. now rewrite Hv.
Qed.

Lemma extractVersion_Index (modCall : tfconfig.ModuleCall) (m : nat) :
  tfconfig.Version modCall = "" →
  strings.Index (tfconfig.Source modCall) "?ref=" = Some m →
  extractVersion modCall = before "?ref=" (slice_from (m + 5) (tfconfig.Source modCall)).
Proof.
  intros Hv Hi. unfold extractVersion, strings.Contains. rewrite Hv, Hi. simpl.
  destruct (Split_second (tfconfig.Source modCall) "?ref=" m) as [Hlen Hnth];
    [discriminate | exact Hi |].
  simpl in Hlen, Hnth. now rewrite Hlen, Hnth.
Qed.

Lemma extractVersion_no_ref (modCall : tfconfig.ModuleCall) :
  tfconfig.Version modCall = "" →
  strings.Contains (tfconfig.Source modCall) "?ref=" = false →
  extractVersion modCall
  = if strings.HasPrefix (tfconfig.Source modCall) "./"
       || strings.HasPrefix (tfconfig.Source modCall) "../"
    then "local" else "N/A".
Proof. intros Hv Hc. unfold extractVersion. now rewrite Hv, Hc. Qed.

Example extractVersion_vpc : extractVersion call_vpc = "v2.0.0".
Proof. vm_compute. reflexivity. Qed.

Example extractVersion_s3 : extractVersion call_s3 = "N/A".
Proof. vm_compute. reflexivity. Qed.

Example extractVersion_pinned : extractVersion call_pinned = "0.11.0".
Proof. vm_compute. reflexivity. Qed.

Example extractVersion_local : extractVersion call_local = "local".
Proof. vm_compute. reflexivity. Qed.

(** C1, as stated, fails: with two instances of [?ref=] in the source,
    [extractVersion] returns the bytes between the first and the second,
    not everything after the first. *)
Lemma extractVersion_stops_at_second_ref :
  tfconfig.Version call_two_refs = ""
  ∧ first_occurrence "?ref=" (tfconfig.Source call_two_refs) "a" "b?ref=c"
  ∧ extractVersion call_two_refs = "b"
  ∧ extractVersion call_two_refs ≠ "b?ref=c".
Proof.
  split; [reflexivity|]. split; [|split; [vm_compute; reflexivity | vm_compute; discriminate]].
  split; [reflexivity|]. intros [|c pre'] rest' Hs; simpl in *; [discriminate | lia].
Qed.

(** C1, amended: for a module call with an empty version field whose source
    contains [?ref=], [extractVersion] returns the bytes of the source that
    follow the first instance of [?ref=], up to the next instance of [?ref=]
    when there is one and up to the end of the source otherwise. *)
Theorem extractVersion_ref_segment (modCall : tfconfig.ModuleCall) :
  tfconfig.Version modCall = "" →
  strings.Contains (tfconfig.Source modCall) "?ref=" = true →
  ∃ pre rest,
    first_occurrence "?ref=" (tfconfig.Source modCall) pre rest
    ∧ ((strings.Contains rest "?ref=" = false ∧ extractVersion modCall = rest)
       ∨ (∃ ref tail, first_occurrence "?ref=" rest ref tail
                      ∧ extractVersion modCall = ref)).
Proof.
  intros Hv Hc. unfold strings.Contains in Hc.
  destruct (strings.Index (tfconfig.Source modCall) "?ref=") as [m|] eqn:Hm; [|discriminate].
  destruct (Index_first_occurrence _ _ _ Hm) as [Hfirst _].
  rewrite (extractVersion_Index _ _ Hv Hm).
  eexists _, _. split; [exact Hfirst|]. simpl.
  destruct (before_cases "?ref=" (slice_from (m + 5) (tfconfig.Source modCall)))
    as [[Hno ->]|[tail Htail]].
  - left. split; [exact Hno | reflexivity].
  - right. eexists _, _. split; [exact Htail | reflexivity].
Qed.

Lemma extractVersion_ref_segment_witness :
  ∃ pre rest,
    first_occurrence "?ref=" (tfconfig.Source call_vpc) pre rest
    ∧ ((strings.Contains rest "?ref=" = false ∧ extractVersion call_vpc = rest)
       ∨ (∃ ref tail, first_occurrence "?ref=" rest ref tail
                      ∧ extractVersion call_vpc = ref)).
Proof. apply (extractVersion_ref_segment call_vpc); reflexivity. Defined.

(** C2, as stated, fails: when nothing follows [?ref=], [extractVersion]
    returns the empty string; it does not go on to the rule for local
    paths, which would give ["local"] here. *)
Lemma extractVersion_returns_empty :
  tfconfig.Version call_empty_ref = ""
  ∧ strings.Contains (tfconfig.Source call_empty_ref) "?ref=" = true
  ∧ strings.HasPrefix (tfconfig.Source call_empty_ref) "./" = true
  ∧ extractVersion call_empty_ref = ""
  ∧ extractVersion call_empty_ref ≠ "local".
Proof. repeat split; try (vm_compute; reflexivity). vm_compute. discriminate. Qed.

(** C2, amended: [extractVersion] is a decision list. A version field that
    is not empty is returned as it is. Otherwise, when the source contains
    [?ref=], the result is the bytes between the first [?ref=] of the source
    and the next one (or the end), empty or not: there is no falling
    through to the last rule. Otherwise the result is ["local"] for a source
    that starts with [./] or [../], and ["N/A"] for any other. The result is
    the empty string exactly when the version field is empty and the first
    [?ref=] of the source is followed at once by the end of the source or by
    another [?ref=]. *)
Theorem extractVersion_cases (modCall : tfconfig.ModuleCall) :
  (tfconfig.Version modCall ≠ "" →
   extractVersion modCall = tfconfig.Version modCall)
  ∧ (tfconfig.Version modCall = "" →
     strings.Contains (tfconfig.Source modCall) "?ref=" = true →
     ∃ pre rest, first_occurrence "?ref=" (tfconfig.Source modCall) pre rest
                 ∧ extractVersion modCall = before "?ref=" rest)
  ∧ (tfconfig.Version modCall = "" →
     strings.Contains (tfconfig.Source modCall) "?ref=" = false →
     extractVersion modCall
     = if strings.HasPrefix (tfconfig.Source modCall) "./"
          || strings.HasPrefix (tfconfig.Source modCall) "../"
       then "local" else "N/A")
  ∧ (extractVersion modCall = ""
     ↔ tfconfig.Version modCall = ""
       ∧ ∃ pre rest, first_occurrence "?ref=" (tfconfig.Source modCall) pre rest
                     ∧ (rest = "" ∨ strings.HasPrefix rest "?ref=" = true)).
Proof.
  split; [apply extractVersion_explicit|].
  split.
  { intros Hv Hc. unfold strings.Contains in Hc.
    destruct (strings.Index (tfconfig.Source modCall) "?ref=") as [m|] eqn:Hm; [|discriminate].
    destruct (Index_first_occurrence _ _ _ Hm) as [Hfirst _].
    eexists _, _. split; [exact Hfirst | exact (extractVersion_Index _ _ Hv Hm)]. }
  split; [apply extractVersion_no_ref|].
  destruct (decide (tfconfig.Version modCall = "")) as [Hv|Hv].
  - destruct (strings.Index (tfconfig.Source modCall) "?ref=") as [m|] eqn:Hm.
    + destruct (Index_first_occurrence _ _ _ Hm) as [Hfirst _].
      rewrite (extractVersion_Index _ _ Hv Hm), before_empty by discriminate. split.
      * intros Hr. split; [exact Hv|]. eexists _, _. split; [exact Hfirst | exact Hr].
      * intros (_ & pre & rest & Hf & Hr).
        destruct (first_occurrence_unique _ _ _ _ _ _ Hfirst Hf) as [_ <-]. exact Hr.
    + assert (strings.Contains (tfconfig.Source modCall) "?ref=" = false) as Hc
        by (unfold strings.Contains; now rewrite Hm).
      rewrite (extractVersion_no_ref _ Hv Hc). split.
      * destruct (_ || _); discriminate.
      * intros (_ & pre & rest & Hf & _).
        apply first_occurrence_Index in Hf. congruence.
  - rewrite (extractVersion_explicit _ Hv).
    split; [congruence | intros [Hv' _]; congruence].
Qed.

Lemma extractVersion_cases_witness :
  extractVersion call_pinned = tfconfig.Version call_pinned
  ∧ (∃ pre rest, first_occurrence "?ref=" (tfconfig.Source call_empty_ref) pre rest
                 ∧ extractVersion call_empty_ref = before "?ref=" rest)
  ∧ extractVersion call_local
    = if strings.HasPrefix (tfconfig.Source call_local) "./"
         || strings.HasPrefix (tfconfig.Source call_local) "../"
      then "local" else "N/A".
Proof.
  split; [|split].
  - apply (proj1 (extractVersion_cases call_pinned)). discriminate.
  - apply (proj1 (proj2 (extractVersion_cases call_empty_ref))); reflexivity.
  - apply (proj1 (proj2 (proj2 (extractVersion_cases call_local)))); reflexivity.
Defined.

(** C7: a module call with a non-empty version field gets that version,
    whatever its source is. *)
Theorem extractVersion_explicit_version (name source version : string) :
  version ≠ "" →
  extractVersion {| tfconfig.Name := name; tfconfig.Source := source;
                    tfconfig.Version := version |} = version.
Proof. intros Hv. now apply extractVersion_explicit. Qed.

Lemma extractVersion_explicit_version_witness :
  "0.11.0" ≠ ""
  ∧ extractVersion {| tfconfig.Name := "consul";
                      tfconfig.Source := "./modules/consul?ref=v0.1.0";
                      tfconfig.Version := "0.11.0" |} = "0.11.0".
Proof.
  split; [discriminate|].
  apply (extractVersion_explicit_version "consul" "./modules/consul?ref=v0.1.0" "0.11.0").
  discriminate.
Defined.

(** C8: with an empty version field and no [?ref=] in the source,
    [extractVersion] returns ["local"] when the source starts with [./] or
    [../], and ["N/A"] otherwise. *)
Theorem extractVersion_local_or_NA (modCall : tfconfig.ModuleCall) :
  tfconfig.Version modCall = "" →
  strings.Contains (tfconfig.Source modCall) "?ref=" = false →
  extractVersion modCall
  = if strings.HasPrefix (tfconfig.Source modCall) "./"
       || strings.HasPrefix (tfconfig.Source modCall) "../"
    then "local" else "N/A".
Proof. apply extractVersion_no_ref. Qed.

Lemma extractVersion_local_or_NA_witness :
  extractVersion call_local = "local" ∧ extractVersion call_s3 = "N/A".
Proof.
  split.
  - apply (extractVersion_local_or_NA call_local); reflexivity.
  - apply (extractVersion_local_or_NA call_s3); reflexivity.
Defined.

(** ** [generateSBOM] *)

Lemma generateSBOM_step_foldl (configPath : string) (calls : list tfconfig.ModuleCall)
    (sbom : SBOM) :
  foldl (generateSBOM_step configPath) sbom calls
  = {| XMLName := XMLName sbom;
       Modules := Modules sbom ++ (ModuleInfo_of configPath <$> calls) |}.
Proof.
  revert sbom; induction calls as [|call calls IH]; intros sbom; simpl.
  - rewrite app_nil_r. now destruct sbom.
  - rewrite IH. simpl. now rewrite <- app_assoc.
Qed.

Section GenerateSBOM_properties.

Context `{tfconfig.Loader}.

Lemma generateSBOM_run_ok (configPath : string) (calls : list tfconfig.ModuleCall) :
  tfconfig.HasErrors (tfconfig.LoadModule configPath).2 = false →
  generateSBOM_run calls configPath
  = (Some {| XMLName := XMLName SBOM_zero;
             Modules := ModuleInfo_of configPath <$> calls |}, None).
Proof.
  intros Hok. unfold generateSBOM_run.
  destruct (tfconfig.LoadModule configPath) as [module diag]. simpl in Hok.
  now rewrite Hok, generateSBOM_step_foldl.
Qed.

Lemma generateSBOM_run_error (configPath : string) (calls : list tfconfig.ModuleCall) :
  tfconfig.HasErrors (tfconfig.LoadModule configPath).2 = true →
  generateSBOM_run calls configPath
  = (None, Some ("failed to load Terraform module: "
                 +:+ tfconfig.Err (tfconfig.LoadModule configPath).2)).
Proof.
  intros Herr. unfold generateSBOM_run.
  destruct (tfconfig.LoadModule configPath) as [module diag]. simpl in *.
  now rewrite Herr.
Qed.

Lemma generateSBOM_returns (configPath : string) : ∃ r, generateSBOM configPath r.
Proof. eexists. apply generateSBOM_intro. unfold map_range. reflexivity. Qed.

End GenerateSBOM_properties.

Lemma map_range_length {V} (m : gmap string V) (vs : list V) :
  map_range m vs → length vs = size m.
Proof.
  unfold map_range. intros ->. now rewrite length_fmap, length_map_to_list.
Qed.

Lemma example_range_vpc_s3 :
  map_range (tfconfig.ModuleCalls example_module) [call_vpc; call_s3].
Proof. unfold map_range. vm_compute. first [reflexivity | apply perm_swap]. Qed.

Lemma example_range_s3_vpc :
  map_range (tfconfig.ModuleCalls example_module) [call_s3; call_vpc].
Proof. unfold map_range. vm_compute. first [reflexivity | apply perm_swap]. Qed.

Lemma example_run_vpc_s3 :
  generateSBOM (H := example_loader) "path" (Some sbom_vpc_s3, None).
Proof.
  assert (generateSBOM_run (H := example_loader) [call_vpc; call_s3] "path"
          = (Some sbom_vpc_s3, None)) as <- by (vm_compute; reflexivity).
  apply generateSBOM_intro. exact example_range_vpc_s3.
Qed.

Lemma example_run_s3_vpc :
  generateSBOM (H := example_loader) "path" (Some sbom_s3_vpc, None).
Proof.
  assert (generateSBOM_run (H := example_loader) [call_s3; call_vpc] "path"
          = (Some sbom_s3_vpc, None)) as <- by (vm_compute; reflexivity).
  apply generateSBOM_intro. exact example_range_s3_vpc.
Qed.

(** C3, as stated, fails: [module.ModuleCalls] is a Go map, and two runs of
    [generateSBOM] on the same result of the collaborator can return the
    records in different orders. *)
Lemma generateSBOM_order_differs :
  generateSBOM (H := example_loader) "path" (Some sbom_vpc_s3, None)
  ∧ generateSBOM (H := example_loader) "path" (Some sbom_s3_vpc, None)
  ∧ sbom_vpc_s3 ≠ sbom_s3_vpc.
Proof.
  split; [exact example_run_vpc_s3|]. split; [exact example_run_s3_vpc|]. discriminate.
Qed.

(** C3, amended: in every run [generateSBOM] returns one record per module
    call, in the order in which the loop of that run visits the map of
    module calls, without sorting, grouping or removing duplicates; the
    records of two runs on the same result of the collaborator are equal up
    to their order, and the two results are equal when the two loops visit
    the calls in the same order. *)
Theorem generateSBOM_order `{tfconfig.Loader} (configPath : string)
    (r1 r2 : option SBOM * option error) :
  tfconfig.HasErrors (tfconfig.LoadModule configPath).2 = false →
  generateSBOM configPath r1 →
  generateSBOM configPath r2 →
  let calls := tfconfig.ModuleCalls (tfconfig.LoadModule configPath).1 in
  ∃ calls1 calls2 sbom1 sbom2,
    r1 = (Some sbom1, None) ∧ r2 = (Some sbom2, None)
    ∧ map_range calls calls1 ∧ map_range calls calls2
    ∧ Modules sbom1 = ModuleInfo_of configPath <$> calls1
    ∧ Modules sbom2 = ModuleInfo_of configPath <$> calls2
    ∧ length (Modules sbom1) = size calls
    ∧ Modules sbom1 ≡ₚ Modules sbom2
    ∧ (calls1 = calls2 → r1 = r2).
Proof.
  intros Hok [calls1 Hr1] [calls2 Hr2]. simpl.
  rewrite !generateSBOM_run_ok by exact Hok.
  eexists calls1, calls2, _, _. repeat split; try assumption; simpl.
  - rewrite length_fmap. now apply map_range_length.
  - unfold map_range in *. now rewrite Hr1, Hr2.
  - now intros ->.
Qed.

Lemma generateSBOM_order_witness :
  ∃ calls1 calls2 sbom1 sbom2,
    (Some sbom_vpc_s3, @None error) = (Some sbom1, None)
    ∧ (Some sbom_s3_vpc, @None error) = (Some sbom2, None)
    ∧ map_range (tfconfig.ModuleCalls example_module) calls1
    ∧ map_range (tfconfig.ModuleCalls example_module) calls2
    ∧ Modules sbom1 = ModuleInfo_of "path" <$> calls1
    ∧ Modules sbom2 = ModuleInfo_of "path" <$> calls2
    ∧ length (Modules sbom1) = size (tfconfig.ModuleCalls example_module)
    ∧ Modules sbom1 ≡ₚ Modules sbom2
    ∧ (calls1 = calls2 → (Some sbom_vpc_s3, @None error) = (Some sbom_s3_vpc, None)).
Proof.
  apply (generateSBOM_order (H := example_loader) "path"
           (Some sbom_vpc_s3, None) (Some sbom_s3_vpc, None)).
  - reflexivity.
  - exact example_run_vpc_s3.
  - exact example_run_s3_vpc.
Defined.

(** C5: when the collaborator reports an error, [generateSBOM] returns no
    SBOM and the error [failed to load Terraform module: ...] that carries
    the text of the diagnostics; when it reports none, [generateSBOM]
    returns an SBOM and no error. *)
Theorem generateSBOM_LoadError `{tfconfig.Loader} (configPath : string)
    (r : option SBOM * option error) :
  generateSBOM configPath r →
  let diag := (tfconfig.LoadModule configPath).2 in
  (tfconfig.HasErrors diag = true
   ∧ r = (None, Some ("failed to load Terraform module: " +:+ tfconfig.Err diag)))
  ∨ (tfconfig.HasErrors diag = false ∧ ∃ sbom, r = (Some sbom, None)).
Proof.
  intros [calls _]. simpl.
  destruct (tfconfig.HasErrors (tfconfig.LoadModule configPath).2) eqn:Hd.
  - left. split; [reflexivity|]. now apply generateSBOM_run_error.
  - right. split; [reflexivity|]. eexists. now apply generateSBOM_run_ok.
Qed.

Lemma example_run_missing :
  generateSBOM (H := example_loader) "missing"
    (None, Some "failed to load Terraform module: Failed to read module directory: Module directory missing does not exist or cannot be read.").
Proof.
  match goal with |- generateSBOM _ ?r =>
    assert (generateSBOM_run (H := example_loader) [] "missing" = r) as <-
      by (vm_compute; reflexivity)
  end.
  apply generateSBOM_intro. unfold map_range. vm_compute. reflexivity.
Qed.

Lemma generateSBOM_LoadError_witness :
  let r : option SBOM * option error :=
    (None, Some "failed to load Terraform module: Failed to read module directory: Module directory missing does not exist or cannot be read.") in
  let diag := (tfconfig.LoadModule (Loader := example_loader) "missing").2 in
  (tfconfig.HasErrors diag = true
   ∧ r = (None, Some ("failed to load Terraform module: " +:+ tfconfig.Err diag)))
  ∨ (tfconfig.HasErrors diag = false ∧ ∃ sbom, r = (Some sbom, None)).
Proof.
  exact (generateSBOM_LoadError (H := example_loader) "missing" _ example_run_missing).
Defined.

(** C6: when [generateSBOM] succeeds, the SBOM has one record per module
    call of the collaborator: name and source are those of the call, the
    version is [extractVersion] of the call, and the config field is the
    argument [configPath]. *)
Theorem generateSBOM_records `{tfconfig.Loader} (configPath : string) (sbom : SBOM) :
  generateSBOM configPath (Some sbom, None) →
  ∃ calls,
    map_range (tfconfig.ModuleCalls (tfconfig.LoadModule configPath).1) calls
    ∧ length (Modules sbom) = length calls
    ∧ ∀ i modCall, calls !! i = Some modCall →
        Modules sbom !! i
        = Some {| Name := tfconfig.Name modCall;
                  Source := tfconfig.Source modCall;
                  Version := extractVersion modCall;
                  Config := configPath |}.
Proof.
  intros Hrun. inversion Hrun as [calls Hrange Hr]. exists calls.
  destruct (tfconfig.HasErrors (tfconfig.LoadModule configPath).2) eqn:Hd.
  - rewrite generateSBOM_run_error in Hr by exact Hd. discriminate.
  - rewrite generateSBOM_run_ok in Hr by exact Hd. injection Hr as <-. simpl.
    split; [exact Hrange|]. split; [apply length_fmap|].
    intros i modCall Hi. rewrite list_lookup_fmap, Hi. reflexivity.
Qed.

Lemma generateSBOM_records_witness :
  ∃ calls,
    map_range (tfconfig.ModuleCalls example_module) calls
    ∧ length (Modules sbom_vpc_s3) = length calls
    ∧ ∀ i modCall, calls !! i = Some modCall →
        Modules sbom_vpc_s3 !! i
        = Some {| Name := tfconfig.Name modCall;
                  Source := tfconfig.Source modCall;
                  Version := extractVersion modCall;
                  Config := "path" |}.
Proof.
  exact (generateSBOM_records (H := example_loader) "path" sbom_vpc_s3 example_run_vpc_s3).
Defined.

(** ** The CSV emitter *)

Lemma csv_lines_app (xs ys : list (list string)) :
  csv_lines (xs ++ ys) = csv_lines xs +:+ csv_lines ys.
Proof.
  induction xs as [|x xs IH]; simpl; [reflexivity|]. now rewrite IH, append_assoc.
Qed.

Lemma write_records_buf (writer : csv.Writer) (mods : list ModuleInfo) :
  write_records writer mods
  = ({| csv.w := csv.w writer;
        csv.buf := csv.buf writer +:+ csv_lines (csv_record <$> mods) |}, None).
Proof.
  revert writer; induction mods as [|m mods IH]; intros writer; simpl.
  - rewrite append_nil_r. now destruct writer.
  - rewrite IH. simpl. now rewrite append_assoc.
Qed.

Lemma writeSBOMToCSV_fresh (sbom : SBOM) (outputPath : string) (w : os.World) :
  os.files w !! outputPath = None →
  writeSBOMToCSV sbom outputPath w
  = ({| os.files :=
          <[outputPath := os.File (csv_lines (csv_header :: (csv_record <$> Modules sbom)))]>
            (os.files w);
        os.stdout := os.stdout w +:+ written_to outputPath |}, None).
Proof.
  intros Hnone. unfold writeSBOMToCSV, fileExists, os.Stat, os.OpenFile.
  rewrite Hnone. simpl. rewrite write_records_buf. simpl.
  unfold csv.Flush, os.Write, os.Close. simpl. rewrite lookup_insert_eq.
  simpl. now rewrite insert_insert_eq.
Qed.

Lemma writeSBOMToCSV_existing (sbom : SBOM) (outputPath content : string) (w : os.World) :
  os.files w !! outputPath = Some (os.File content) →
  writeSBOMToCSV sbom outputPath w
  = ({| os.files :=
          <[outputPath := os.File (content +:+ csv_lines (csv_record <$> Modules sbom))]>
            (os.files w);
        os.stdout := os.stdout w +:+ written_to outputPath |}, None).
Proof.
  intros Hfile. unfold writeSBOMToCSV, fileExists, os.Stat, os.OpenFile.
  rewrite Hfile. simpl. rewrite write_records_buf. simpl.
  unfold csv.Flush, os.Write, os.Close. simpl. now rewrite Hfile.
Qed.

Lemma writeSBOMToCSV_directory (sbom : SBOM) (outputPath : string) (w : os.World) :
  os.files w !! outputPath = Some os.Dir →
  writeSBOMToCSV sbom outputPath w
  = (w, Some ("failed to open CSV file: open " +:+ outputPath +:+ ": is a directory")).
Proof.
  intros Hdir. unfold writeSBOMToCSV, fileExists, os.Stat, os.OpenFile.
  now rewrite Hdir.
Qed.

(** C4: a record is written with its fields in the order config path,
    name, source, version; the header is written only when the file did not
    exist, and the records are appended when it did; so writing [A] to a
    fresh path and then [B] to the same path leaves the header once, then
    the rows of [A], then the rows of [B]. *)
Theorem writeSBOMToCSV_header_once (A B : SBOM) (outputPath : string) (w : os.World) :
  os.files w !! outputPath = None →
  let header := ["Config Path"; "Module Name"; "Source"; "Version"] in
  let rows (sbom : SBOM) :=
    (λ m, [Config m; Name m; Source m; Version m]) <$> Modules sbom in
  let first := writeSBOMToCSV A outputPath w in
  let second := writeSBOMToCSV B outputPath first.1 in
  first.2 = None
  ∧ os.files first.1 !! outputPath = Some (os.File (csv_lines (header :: rows A)))
  ∧ second.2 = None
  ∧ os.files second.1 !! outputPath
    = Some (os.File (csv_lines (header :: rows A ++ rows B))).
Proof.
  intros Hnone. cbv zeta. rewrite (writeSBOMToCSV_fresh A _ _ Hnone).
  cbn [fst snd os.files]. rewrite lookup_insert_eq.
  split; [reflexivity|]. split; [reflexivity|].
  erewrite writeSBOMToCSV_existing by apply lookup_insert_eq.
  cbn [fst snd os.files]. rewrite lookup_insert_eq. split; [reflexivity|].
  do 2 f_equal. symmetry.
  apply (csv_lines_app (csv_header :: (csv_record <$> Modules A)) (csv_record <$> Modules B)).
Qed.

Lemma writeSBOMToCSV_header_once_witness :
  let first := writeSBOMToCSV sbom_vpc_s3 "out.csv" empty_world in
  let second := writeSBOMToCSV sbom_s3_vpc "out.csv" first.1 in
  first.2 = None
  ∧ os.files first.1 !! "out.csv"
    = Some (os.File (csv_lines
        (["Config Path"; "Module Name"; "Source"; "Version"]
         :: ((λ m, [Config m; Name m; Source m; Version m]) <$> Modules sbom_vpc_s3))))
  ∧ second.2 = None
  ∧ os.files second.1 !! "out.csv"
    = Some (os.File (csv_lines
        (["Config Path"; "Module Name"; "Source"; "Version"]
         :: ((λ m, [Config m; Name m; Source m; Version m]) <$> Modules sbom_vpc_s3)
            ++ ((λ m, [Config m; Name m; Source m; Version m]) <$> Modules sbom_s3_vpc)))).
Proof.
  apply (writeSBOMToCSV_header_once sbom_vpc_s3 sbom_s3_vpc "out.csv" empty_world).
  reflexivity.
Defined.

Example csv_file_of_example :
  os.files (writeSBOMToCSV sbom_vpc_s3 "out.csv" empty_world).1 !! "out.csv"
  = Some (os.File
      ("Config Path,Module Name,Source,Version" +:+ LF
       +:+ "path,aws_vpc,git::https://github.com/terraform-aws-modules/vpc.git?ref=v2.0.0,v2.0.0" +:+ LF
       +:+ "path,s3_bucket,hashicorp/aws,N/A" +:+ LF)).
Proof. vm_compute. reflexivity. Qed.

(** ** The JSON and XML emitters *)

Lemma writeSBOMToJSON_file (sbom : SBOM) (outputPath : string) (w : os.World) :
  os.files w !! outputPath ≠ Some os.Dir →
  writeSBOMToJSON sbom outputPath w
  = ({| os.files := <[outputPath := os.File (json_Encode sbom)]> (os.files w);
        os.stdout := os.stdout w +:+ written_to outputPath |}, None).
Proof.
  intros Hnd. unfold writeSBOMToJSON, os.Create.
  destruct (os.files w !! outputPath) as [[content|]|] eqn:Hf; try congruence;
    unfold os.Write, os.Close; simpl; rewrite lookup_insert_eq; simpl;
    now rewrite insert_insert_eq.
Qed.

Lemma writeSBOMToXML_file (sbom : SBOM) (outputPath : string) (w : os.World) :
  os.files w !! outputPath ≠ Some os.Dir →
  writeSBOMToXML sbom outputPath w
  = ({| os.files := <[outputPath := os.File (xml_Encode sbom)]> (os.files w);
        os.stdout := os.stdout w +:+ written_to outputPath |}, None).
Proof.
  intros Hnd. unfold writeSBOMToXML, os.Create.
  destruct (os.files w !! outputPath) as [[content|]|] eqn:Hf; try congruence;
    unfold os.Write, os.Close; simpl; rewrite lookup_insert_eq; simpl;
    now rewrite insert_insert_eq.
Qed.

(** C9: the JSON and the XML emitter replace the file: after writing [A]
    and then [B] to the same path, the file holds the encoding of [B] and
    nothing else, and the files are those left by writing [B] alone. *)
Theorem write_JSON_XML_overwrites (A B : SBOM) (outputPath : string) (w : os.World) :
  os.files w !! outputPath ≠ Some os.Dir →
  let json1 := writeSBOMToJSON A outputPath w in
  let json2 := writeSBOMToJSON B outputPath json1.1 in
  let xml1 := writeSBOMToXML A outputPath w in
  let xml2 := writeSBOMToXML B outputPath xml1.1 in
  (json1.2 = None ∧ json2.2 = None
   ∧ os.files json2.1 !! outputPath = Some (os.File (json_Encode B))
   ∧ os.files json2.1 = os.files (writeSBOMToJSON B outputPath w).1)
  ∧ (xml1.2 = None ∧ xml2.2 = None
     ∧ os.files xml2.1 !! outputPath = Some (os.File (xml_Encode B))
     ∧ os.files xml2.1 = os.files (writeSBOMToXML B outputPath w).1).
Proof.
  intros Hnd. cbv zeta. split.
  - rewrite (writeSBOMToJSON_file A _ _ Hnd), (writeSBOMToJSON_file B _ _ Hnd).
    cbn [fst snd os.files].
    rewrite writeSBOMToJSON_file by (cbn [os.files]; rewrite lookup_insert_eq; discriminate).
    cbn [fst snd os.files]. rewrite lookup_insert_eq, insert_insert_eq. repeat split.
  - rewrite (writeSBOMToXML_file A _ _ Hnd), (writeSBOMToXML_file B _ _ Hnd).
    cbn [fst snd os.files].
    rewrite writeSBOMToXML_file by (cbn [os.files]; rewrite lookup_insert_eq; discriminate).
    cbn [fst snd os.files]. rewrite lookup_insert_eq, insert_insert_eq. repeat split.
Qed.

Lemma write_JSON_XML_overwrites_witness :
  let json1 := writeSBOMToJSON sbom_vpc_s3 "out" empty_world in
  let json2 := writeSBOMToJSON sbom_s3_vpc "out" json1.1 in
  let xml1 := writeSBOMToXML sbom_vpc_s3 "out" empty_world in
  let xml2 := writeSBOMToXML sbom_s3_vpc "out" xml1.1 in
  (json1.2 = None ∧ json2.2 = None
   ∧ os.files json2.1 !! "out" = Some (os.File (json_Encode sbom_s3_vpc))
   ∧ os.files json2.1 = os.files (writeSBOMToJSON sbom_s3_vpc "out" empty_world).1)
  ∧ (xml1.2 = None ∧ xml2.2 = None
     ∧ os.files xml2.1 !! "out" = Some (os.File (xml_Encode sbom_s3_vpc))
     ∧ os.files xml2.1 = os.files (writeSBOMToXML sbom_s3_vpc "out" empty_world).1).
Proof.
  apply (write_JSON_XML_overwrites sbom_vpc_s3 sbom_s3_vpc "out" empty_world).
  discriminate.
Defined.


Lemma ReadFile_writeSBOMToJSON (sbom : SBOM) (outputPath : string) (w : os.World) :
  os.files w !! outputPath ≠ Some os.Dir →
  os.ReadFile outputPath (writeSBOMToJSON sbom outputPath w).1 = inl (json_Encode sbom).
Proof.
  intros Hnd. rewrite (writeSBOMToJSON_file _ _ _ Hnd). unfold os.ReadFile.
  cbn [fst os.files]. now rewrite lookup_insert_eq.
Qed.

Lemma json_Unmarshal_vpc_s3 : json_Unmarshal (json_Encode sbom_vpc_s3) = inl sbom_vpc_s3.
Proof. vm_compute. reflexivity. Qed.

Lemma json_Unmarshal_s3_vpc : json_Unmarshal (json_Encode sbom_s3_vpc) = inl sbom_s3_vpc.
Proof. vm_compute. reflexivity. Qed.

Lemma example_runs (sbom : SBOM) :
  generateSBOM (H := example_loader) "path" (Some sbom, None) →
  sbom = sbom_vpc_s3 ∨ sbom = sbom_s3_vpc.
Proof.
  intros Hrun. remember (Some sbom, None) as r eqn:Hr.
  destruct Hrun as [calls Hrange].
  rewrite generateSBOM_run_ok in Hr by reflexivity. injection Hr as <-.
  unfold map_range in Hrange.
  assert ((map_to_list (tfconfig.ModuleCalls
             (tfconfig.LoadModule (Loader := example_loader) "path").1)).*2
          = [call_s3; call_vpc]) as Hlist by (vm_compute; reflexivity).
  rewrite Hlist in Hrange. clear Hlist.
  pose proof (Permutation_length Hrange) as Hlen.
  destruct calls as [|c1 [|c2 [|c3 calls]]]; try discriminate Hlen.
  apply Permutation_length_2 in Hrange.
  destruct Hrange as [[-> ->] | [-> ->]]; [right | left]; vm_compute; reflexivity.
Qed.

(** C10: every SBOM that [generateSBOM] builds from the module calls
    [aws_vpc] (source ending in [?ref=v2.0.0]) and [s3_bucket] (source
    [hashicorp/aws]), both without explicit version, carries the versions
    [v2.0.0] and [N/A]; written by the JSON emitter and parsed again, it
    gives back the same records. *)
Theorem json_round_trip (sbom : SBOM) :
  generateSBOM (H := example_loader) "path" (Some sbom, None) →
  (Modules sbom ≡ₚ
     [ {| Name := "aws_vpc";
          Source := "git::https://github.com/terraform-aws-modules/vpc.git?ref=v2.0.0";
          Version := "v2.0.0"; Config := "path" |};
       {| Name := "s3_bucket"; Source := "hashicorp/aws";
          Version := "N/A"; Config := "path" |} ])
  ∧ ∃ content,
      os.ReadFile "sbom.json" (writeSBOMToJSON sbom "sbom.json" empty_world).1 = inl content
      ∧ json_Unmarshal content = inl sbom.
Proof.
  intros Hrun. apply example_runs in Hrun as [-> | ->].
  - split; [reflexivity|]. exists (json_Encode sbom_vpc_s3). split.
    + apply ReadFile_writeSBOMToJSON. discriminate.
    + exact json_Unmarshal_vpc_s3.
  - split; [apply perm_swap|]. exists (json_Encode sbom_s3_vpc). split.
    + apply ReadFile_writeSBOMToJSON. discriminate.
    + exact json_Unmarshal_s3_vpc.
Qed.

Lemma json_round_trip_witness :
  (Modules sbom_vpc_s3 ≡ₚ
     [ {| Name := "aws_vpc";
          Source := "git::https://github.com/terraform-aws-modules/vpc.git?ref=v2.0.0";
          Version := "v2.0.0"; Config := "path" |};
       {| Name := "s3_bucket"; Source := "hashicorp/aws";
          Version := "N/A"; Config := "path" |} ])
  ∧ ∃ content,
      os.ReadFile "sbom.json" (writeSBOMToJSON sbom_vpc_s3 "sbom.json" empty_world).1
      = inl content
      ∧ json_Unmarshal content = inl sbom_vpc_s3.
Proof. exact (json_round_trip sbom_vpc_s3 example_run_vpc_s3). Defined.

(** * Further properties of the program *)

(** ** [extractVersion] *)

Lemma first_occurrence_before_free (sep s pre rest : string) :
  sep ≠ "" → first_occurrence sep s pre rest → strings.Contains pre sep = false.
Proof.
  intros Hsep [Hs Hmin]. apply Contains_false. intros a b Hpre.
  specialize (Hmin a (b +:+ sep +:+ rest)).
  rewrite Hs, Hpre, !append_assoc in Hmin. specialize (Hmin eq_refl).
  rewrite !length_append in Hmin. destruct sep; [congruence|]. simpl in Hmin. lia.
Qed.

(** X1: when the version field is empty, the version that [extractVersion]
    returns never contains [?ref=]. *)
Theorem extractVersion_without_ref (modCall : tfconfig.ModuleCall) :
  tfconfig.Version modCall = "" →
  strings.Contains (extractVersion modCall) "?ref=" = false.
Proof.
  intros Hv.
  destruct (strings.Index (tfconfig.Source modCall) "?ref=") as [m|] eqn:Hm.
  - rewrite (extractVersion_Index _ _ Hv Hm).
    destruct (before_cases "?ref=" (slice_from (m + 5) (tfconfig.Source modCall)))
      as [[Hno ->]|[tail Htail]]; [exact Hno|].
    now apply first_occurrence_before_free in Htail.
  - rewrite extractVersion_no_ref; [| exact Hv | unfold strings.Contains; now rewrite Hm].
    now destruct (_ || _).
Qed.

Lemma extractVersion_without_ref_witness :
  strings.Contains (extractVersion call_two_refs) "?ref=" = false.
Proof. apply (extractVersion_without_ref call_two_refs). reflexivity. Defined.

(** ** [generateSBOM] *)

(** X2: when the collaborator reports an error, or returns at most one
    module call, all runs of [generateSBOM] return the same result. *)
Theorem generateSBOM_deterministic_small `{tfconfig.Loader} (configPath : string)
    (r1 r2 : option SBOM * option error) :
  tfconfig.HasErrors (tfconfig.LoadModule configPath).2 = true
  ∨ size (tfconfig.ModuleCalls (tfconfig.LoadModule configPath).1) ≤ 1 →
  generateSBOM configPath r1 → generateSBOM configPath r2 → r1 = r2.
Proof.
  intros Hsmall [calls1 H1] [calls2 H2].
  destruct (tfconfig.HasErrors (tfconfig.LoadModule configPath).2) eqn:Hd.
  - now rewrite !generateSBOM_run_error.
  - destruct Hsmall as [|Hsize]; [discriminate|].
    assert (calls1 = calls2) as ->; [|reflexivity].
    pose proof (map_range_length _ _ H1) as L1.
    pose proof (map_range_length _ _ H2) as L2.
    unfold map_range in *. rewrite <- H2 in H1.
    destruct calls1 as [|a [|b calls1]]; simpl in L1; [| |lia].
    + now apply Permutation_nil_l in H1.
    + now apply Permutation_singleton_l in H1.
Qed.

Lemma small_run_one : generateSBOM (H := small_loader) "one" (Some sbom_net, None).
Proof.
  assert (generateSBOM_run (H := small_loader) [call_local] "one" = (Some sbom_net, None))
    as <- by (vm_compute; reflexivity).
  apply generateSBOM_intro. unfold map_range. vm_compute. reflexivity.
Qed.

Lemma small_run_empty : generateSBOM (H := small_loader) "empty" (Some SBOM_zero, None).
Proof.
  assert (generateSBOM_run (H := small_loader) [] "empty" = (Some SBOM_zero, None))
    as <- by (vm_compute; reflexivity).
  apply generateSBOM_intro. unfold map_range. vm_compute. reflexivity.
Qed.

Lemma generateSBOM_deterministic_small_witness :
  (Some sbom_net, @None error) = (Some sbom_net, None).
Proof.
  apply (generateSBOM_deterministic_small (H := small_loader) "one").
  - right. vm_compute. lia.
  - exact small_run_one.
  - exact small_run_one.
Defined.

(** X3: for a configuration without module calls [generateSBOM] succeeds
    with an SBOM without records; its JSON encoding has [null] for the
    modules, not an empty array, and its XML encoding an empty element
    [Modules]. *)
Theorem generateSBOM_no_module_calls `{tfconfig.Loader} (configPath : string)
    (r : option SBOM * option error) :
  tfconfig.HasErrors (tfconfig.LoadModule configPath).2 = false →
  tfconfig.ModuleCalls (tfconfig.LoadModule configPath).1 = ∅ →
  generateSBOM configPath r →
  ∃ sbom, r = (Some sbom, None) ∧ Modules sbom = []
    ∧ json_Encode sbom
      = "{" +:+ LF +:+ "  " +:+ json.appendString "modules" +:+ ": null" +:+ LF +:+ "}" +:+ LF
    ∧ xml_Encode sbom
      = "<SBOM>" +:+ LF +:+ "  <Modules></Modules>" +:+ LF +:+ "</SBOM>".
Proof.
  intros Hok Hempty [calls Hrange]. unfold map_range in Hrange.
  rewrite Hempty, map_to_list_empty in Hrange. apply Permutation_nil_r in Hrange as ->.
  rewrite generateSBOM_run_ok by exact Hok. eexists. split; [reflexivity|].
  split; [reflexivity|]. split; vm_compute; reflexivity.
Qed.

Lemma generateSBOM_no_module_calls_witness :
  ∃ sbom, (Some SBOM_zero, @None error) = (Some sbom, None) ∧ Modules sbom = []
    ∧ json_Encode sbom
      = "{" +:+ LF +:+ "  " +:+ json.appendString "modules" +:+ ": null" +:+ LF +:+ "}" +:+ LF
    ∧ xml_Encode sbom
      = "<SBOM>" +:+ LF +:+ "  <Modules></Modules>" +:+ LF +:+ "</SBOM>".
Proof.
  apply (generateSBOM_no_module_calls (H := small_loader) "empty").
  - reflexivity.
  - reflexivity.
  - exact small_run_empty.
Defined.

(** ** The emitters *)

Lemma writeSBOMToJSON_directory (sbom : SBOM) (outputPath : string) (w : os.World) :
  os.files w !! outputPath = Some os.Dir →
  writeSBOMToJSON sbom outputPath w
  = (w, Some ("failed to create JSON file: open " +:+ outputPath +:+ ": is a directory")).
Proof. intros Hdir. unfold writeSBOMToJSON, os.Create. now rewrite Hdir. Qed.

Lemma writeSBOMToXML_directory (sbom : SBOM) (outputPath : string) (w : os.World) :
  os.files w !! outputPath = Some os.Dir →
  writeSBOMToXML sbom outputPath w
  = (w, Some ("failed to create XML file: open " +:+ outputPath +:+ ": is a directory")).
Proof. intros Hdir. unfold writeSBOMToXML, os.Create. now rewrite Hdir. Qed.

Lemma not_directory (w : os.World) (path : string) :
  os.files w !! path = Some os.Dir ∨ os.files w !! path ≠ Some os.Dir.
Proof. destruct (os.files w !! path) as [[c|]|]; [right | left | right]; congruence. Qed.

(** X4: when the file exists, even empty or with another header,
    [writeSBOMToCSV] adds the rows after the bytes that are there and
    writes no header; with an SBOM without records the file system stays
    as it is. *)
Theorem writeSBOMToCSV_existing_file (sbom : SBOM) (outputPath content : string)
    (w : os.World) :
  os.files w !! outputPath = Some (os.File content) →
  let r := writeSBOMToCSV sbom outputPath w in
  r.2 = None
  ∧ os.files r.1 !! outputPath
    = Some (os.File (content +:+ csv_lines
                       ((λ m, [Config m; Name m; Source m; Version m]) <$> Modules sbom)))
  ∧ (Modules sbom = [] → os.files r.1 = os.files w).
Proof.
  intros Hfile. cbv zeta. rewrite (writeSBOMToCSV_existing _ _ _ _ Hfile).
  cbn [fst snd os.files]. rewrite lookup_insert_eq. split; [reflexivity|].
  split; [reflexivity|]. intros ->. simpl. rewrite append_nil_r. now apply insert_id.
Qed.

Lemma writeSBOMToCSV_existing_file_witness :
  let r := writeSBOMToCSV sbom_vpc_s3 "out" world_with_file in
  r.2 = None
  ∧ os.files r.1 !! "out"
    = Some (os.File (("stale,header" +:+ LF) +:+ csv_lines
                       ((λ m, [Config m; Name m; Source m; Version m])
                          <$> Modules sbom_vpc_s3)))
  ∧ (Modules sbom_vpc_s3 = [] → os.files r.1 = os.files world_with_file).
Proof.
  apply (writeSBOMToCSV_existing_file sbom_vpc_s3 "out" ("stale,header" +:+ LF)
           world_with_file).
  reflexivity.
Defined.

Lemma emitters_frame (sbom : SBOM) (outputPath path : string) (w : os.World) :
  path ≠ outputPath →
  os.files (writeSBOMToCSV sbom outputPath w).1 !! path = os.files w !! path
  ∧ os.files (writeSBOMToJSON sbom outputPath w).1 !! path = os.files w !! path
  ∧ os.files (writeSBOMToXML sbom outputPath w).1 !! path = os.files w !! path.
Proof.
  intros Hne. repeat split.
  - destruct (os.files w !! outputPath) as [[content|]|] eqn:Hf.
    + rewrite (writeSBOMToCSV_existing _ _ _ _ Hf). cbn [fst os.files].
      now rewrite lookup_insert_ne.
    + now rewrite (writeSBOMToCSV_directory _ _ _ Hf).
    + rewrite (writeSBOMToCSV_fresh _ _ _ Hf). cbn [fst os.files].
      now rewrite lookup_insert_ne.
  - destruct (not_directory w outputPath) as [Hd|Hd].
    + now rewrite (writeSBOMToJSON_directory _ _ _ Hd).
    + rewrite (writeSBOMToJSON_file _ _ _ Hd). cbn [fst os.files].
      now rewrite lookup_insert_ne.
  - destruct (not_directory w outputPath) as [Hd|Hd].
    + now rewrite (writeSBOMToXML_directory _ _ _ Hd).
    + rewrite (writeSBOMToXML_file _ _ _ Hd). cbn [fst os.files].
      now rewrite lookup_insert_ne.
Qed.

(** X5: the three emitters leave every path other than the output path as
    it is, whether they succeed or fail. *)
Theorem emitters_touch_only_output (sbom : SBOM) (outputPath path : string) (w : os.World) :
  path ≠ outputPath →
  os.files (writeSBOMToCSV sbom outputPath w).1 !! path = os.files w !! path
  ∧ os.files (writeSBOMToJSON sbom outputPath w).1 !! path = os.files w !! path
  ∧ os.files (writeSBOMToXML sbom outputPath w).1 !! path = os.files w !! path.
Proof. apply emitters_frame. Qed.

Lemma emitters_touch_only_output_witness :
  os.files (writeSBOMToCSV sbom_vpc_s3 "new.csv" world_with_file).1 !! "out"
  = os.files world_with_file !! "out"
  ∧ os.files (writeSBOMToJSON sbom_vpc_s3 "new.csv" world_with_file).1 !! "out"
    = os.files world_with_file !! "out"
  ∧ os.files (writeSBOMToXML sbom_vpc_s3 "new.csv" world_with_file).1 !! "out"
    = os.files world_with_file !! "out".
Proof.
  apply (emitters_touch_only_output sbom_vpc_s3 "new.csv" "out" world_with_file).
  discriminate.
Defined.

(** X6: when the output path is a directory, each emitter returns its own
    error around the error of the operating system, and changes neither
    the file system nor the standard output. *)
Theorem emitters_fail_on_directory (sbom : SBOM) (outputPath : string) (w : os.World) :
  os.files w !! outputPath = Some os.Dir →
  let reason := "open " +:+ outputPath +:+ ": is a directory" in
  writeSBOMToCSV sbom outputPath w = (w, Some ("failed to open CSV file: " +:+ reason))
  ∧ writeSBOMToJSON sbom outputPath w = (w, Some ("failed to create JSON file: " +:+ reason))
  ∧ writeSBOMToXML sbom outputPath w = (w, Some ("failed to create XML file: " +:+ reason)).
Proof.
  intros Hdir. cbv zeta. split; [|split].
  - now apply writeSBOMToCSV_directory.
  - now apply writeSBOMToJSON_directory.
  - now apply writeSBOMToXML_directory.
Qed.

Lemma emitters_fail_on_directory_witness :
  let reason := "open " +:+ "out" +:+ ": is a directory" in
  writeSBOMToCSV sbom_vpc_s3 "out" world_with_dir
  = (world_with_dir, Some ("failed to open CSV file: " +:+ reason))
  ∧ writeSBOMToJSON sbom_vpc_s3 "out" world_with_dir
    = (world_with_dir, Some ("failed to create JSON file: " +:+ reason))
  ∧ writeSBOMToXML sbom_vpc_s3 "out" world_with_dir
    = (world_with_dir, Some ("failed to create XML file: " +:+ reason)).
Proof.
  apply (emitters_fail_on_directory sbom_vpc_s3 "out" world_with_dir). reflexivity.
Defined.

(** X7: the emitters do not look at what a file holds. The CSV emitter
    run on a file written by the JSON emitter adds its rows, without
    header, after the JSON text; the JSON emitter run on a file written by
    the CSV emitter leaves only the JSON text. *)
Theorem emitters_mixed_formats (A B : SBOM) (outputPath : string) (w : os.World) :
  os.files w !! outputPath ≠ Some os.Dir →
  let rows := (λ m, [Config m; Name m; Source m; Version m]) <$> Modules B in
  let csv_after_json := writeSBOMToCSV B outputPath (writeSBOMToJSON A outputPath w).1 in
  let json_after_csv := writeSBOMToJSON B outputPath (writeSBOMToCSV A outputPath w).1 in
  csv_after_json.2 = None
  ∧ os.files csv_after_json.1 !! outputPath
    = Some (os.File (json_Encode A +:+ csv_lines rows))
  ∧ json_after_csv.2 = None
  ∧ os.files json_after_csv.1 !! outputPath = Some (os.File (json_Encode B)).
Proof.
  intros Hnd. cbv zeta. rewrite (writeSBOMToJSON_file A _ _ Hnd). cbn [fst os.files].
  erewrite writeSBOMToCSV_existing by apply lookup_insert_eq.
  cbn [fst snd os.files]. rewrite lookup_insert_eq.
  split; [reflexivity|]. split; [reflexivity|].
  assert (os.files (writeSBOMToCSV A outputPath w).1 !! outputPath ≠ Some os.Dir) as Hnd'.
  { destruct (os.files w !! outputPath) as [[content|]|] eqn:Hf; [| congruence |].
    - rewrite (writeSBOMToCSV_existing _ _ _ _ Hf). cbn [fst os.files].
      now rewrite lookup_insert_eq.
    - rewrite (writeSBOMToCSV_fresh _ _ _ Hf). cbn [fst os.files].
      now rewrite lookup_insert_eq. }
  rewrite (writeSBOMToJSON_file B _ _ Hnd'). cbn [fst snd os.files].
  now rewrite lookup_insert_eq.
Qed.

Lemma emitters_mixed_formats_witness :
  let rows := (λ m, [Config m; Name m; Source m; Version m]) <$> Modules sbom_s3_vpc in
  let csv_after_json :=
    writeSBOMToCSV sbom_s3_vpc "out" (writeSBOMToJSON sbom_vpc_s3 "out" empty_world).1 in
  let json_after_csv :=
    writeSBOMToJSON sbom_s3_vpc "out" (writeSBOMToCSV sbom_vpc_s3 "out" empty_world).1 in
  csv_after_json.2 = None
  ∧ os.files csv_after_json.1 !! "out"
    = Some (os.File (json_Encode sbom_vpc_s3 +:+ csv_lines rows))
  ∧ json_after_csv.2 = None
  ∧ os.files json_after_csv.1 !! "out" = Some (os.File (json_Encode sbom_s3_vpc)).
Proof.
  apply (emitters_mixed_formats sbom_vpc_s3 sbom_s3_vpc "out" empty_world). discriminate.
Defined.

(** ** [printSBOM] *)

Lemma printSBOM_modules (mods : list ModuleInfo) (w : os.World) :
  foldl printSBOM_module w mods
  = {| os.files := os.files w;
       os.stdout := os.stdout w +:+
         foldr (λ m text,
                  "Config Path: " +:+ Config m +:+ LF
                  +:+ "Module Name: " +:+ Name m +:+ LF
                  +:+ "Source: " +:+ Source m +:+ LF
                  +:+ "Version: " +:+ Version m +:+ LF +:+ LF +:+ text)
               "" mods |}.
Proof.
  revert w; induction mods as [|m mods IH]; intros w; simpl.
  - rewrite append_nil_r. now destruct w.
  - rewrite IH. unfold printSBOM_module, fmt.Printf. cbn [os.files os.stdout].
    f_equal. now rewrite !append_assoc.
Qed.

(** X8: [printSBOM] changes no file; it adds to the standard output the two
    lines of the banner and then, for every record in the order of the
    SBOM, the lines of config path, name, source and version and an empty
    line. *)
Theorem printSBOM_output (sbom : SBOM) (w : os.World) :
  os.files (printSBOM sbom w) = os.files w
  ∧ os.stdout (printSBOM sbom w)
    = os.stdout w
      +:+ "Software Bill of Materials (SBOM) for Terraform configuration" +:+ LF
      +:+ "-----------------------------------------------------------" +:+ LF
      +:+ foldr (λ m text,
                   "Config Path: " +:+ Config m +:+ LF
                   +:+ "Module Name: " +:+ Name m +:+ LF
                   +:+ "Source: " +:+ Source m +:+ LF
                   +:+ "Version: " +:+ Version m +:+ LF +:+ LF +:+ text)
                "" (Modules sbom).
Proof.
  unfold printSBOM. rewrite printSBOM_modules. unfold fmt.Printf.
  cbn [os.files os.stdout]. split; [reflexivity|]. now rewrite !append_assoc.
Qed.

(** ** [main] *)

Lemma Parse_rest_length (n : nat) :
  ∀ args v v' rest,
    length args ≤ n → flag.Parse v args = flag.Done v' rest → length rest ≤ length args.
Proof.
  induction n as [|n IH]; intros [|s args] v v' rest Hn; simpl in Hn; try lia.
  - intros [= _ <-]. reflexivity.
  - intros [= _ <-]. reflexivity.
  - cbn [flag.Parse]. destruct (flag.flag_name s) as [[name|]|].
    + destruct (_ || _); [discriminate|].
      destruct (flag.split_value name) as [name' value].
      destruct (String.eqb name' "v").
      { destruct value as [text|].
        - destruct (flag.ParseBool text); [|discriminate].
          intros Hp. apply IH in Hp; simpl; lia.
        - intros Hp. apply IH in Hp; simpl; lia. }
      destruct (String.eqb name' "output").
      { destruct value as [text|].
        - intros Hp. apply IH in Hp; simpl; lia.
        - destruct args as [|text args]; [discriminate|].
          intros Hp. apply IH in Hp; simpl in *; lia. }
      destruct (_ || _); discriminate.
    + intros [= _ <-]. simpl. lia.
    + intros [= _ <-]. reflexivity.
Qed.

Lemma Parse_not_flag (v : flag.values) (s : string) (args : list string) :
  flag.flag_name s = None → flag.Parse v (s :: args) = flag.Done v (s :: args).
Proof. intros Hs. cbn [flag.Parse]. now rewrite Hs. Qed.

Lemma printSBOM_files (sbom : SBOM) (w : os.World) :
  os.files (printSBOM sbom w) = os.files w.
Proof.
  unfold printSBOM. rewrite printSBOM_modules. reflexivity.
Qed.

Lemma writeSBOMToCSV_error (sbom : SBOM) (outputPath : string) (w w' : os.World) (err : error) :
  writeSBOMToCSV sbom outputPath w = (w', Some err) → w' = w.
Proof.
  destruct (os.files w !! outputPath) as [[content|]|] eqn:Hf.
  - rewrite (writeSBOMToCSV_existing _ _ _ _ Hf). discriminate.
  - rewrite (writeSBOMToCSV_directory _ _ _ Hf). congruence.
  - rewrite (writeSBOMToCSV_fresh _ _ _ Hf). discriminate.
Qed.

Lemma writeSBOMToJSON_error (sbom : SBOM) (outputPath : string) (w w' : os.World) (err : error) :
  writeSBOMToJSON sbom outputPath w = (w', Some err) → w' = w.
Proof.
  destruct (not_directory w outputPath) as [Hd|Hd].
  - rewrite (writeSBOMToJSON_directory _ _ _ Hd). congruence.
  - rewrite (writeSBOMToJSON_file _ _ _ Hd). discriminate.
Qed.

Lemma writeSBOMToXML_error (sbom : SBOM) (outputPath : string) (w w' : os.World) (err : error) :
  writeSBOMToXML sbom outputPath w = (w', Some err) → w' = w.
Proof.
  destruct (not_directory w outputPath) as [Hd|Hd].
  - rewrite (writeSBOMToXML_directory _ _ _ Hd). congruence.
  - rewrite (writeSBOMToXML_file _ _ _ Hd). discriminate.
Qed.

Section Main_properties.

Context `{tfconfig.Loader}.
Variable unicode_ToLower : N → N.

Lemma generateSBOM_run_cases (calls : list tfconfig.ModuleCall) (configPath : string) :
  (∃ err, generateSBOM_run calls configPath = (None, Some err)
          ∧ tfconfig.HasErrors (tfconfig.LoadModule configPath).2 = true
          ∧ err = "failed to load Terraform module: "
                  +:+ tfconfig.Err (tfconfig.LoadModule configPath).2)
  ∨ (∃ sbom, generateSBOM_run calls configPath = (Some sbom, None)
             ∧ tfconfig.HasErrors (tfconfig.LoadModule configPath).2 = false
             ∧ Modules sbom = ModuleInfo_of configPath <$> calls).
Proof.
  destruct (tfconfig.HasErrors (tfconfig.LoadModule configPath).2) eqn:Hd.
  - left. eexists. split; [now apply generateSBOM_run_error|]. split; reflexivity.
  - right. eexists. split; [now apply generateSBOM_run_ok|]. split; reflexivity.
Qed.

Lemma main_parsed_before_emitter (calls : list tfconfig.ModuleCall) (prog : string)
    (v : flag.values) (rest : list string) (w : os.World) :
  let r := main_parsed unicode_ToLower calls prog v rest w in
  r.2 ≠ Panic
  ∧ (r.2 ≠ Return →
     (∀ err, r.2 ≠ Fatalf ("Error writing SBOM: " +:+ err)) →
     os.files r.1 = os.files w).
Proof.
  cbv zeta. unfold main_parsed.
  destruct (length rest <? 2); [split; [discriminate | reflexivity]|].
  destruct (generateSBOM_run_cases calls (nth 0 rest "")) as [(err & -> & _)|(sbom & -> & _)];
    [split; [discriminate | reflexivity]|].
  set (w1 := if flag.verbose v then printSBOM sbom w else w).
  assert (os.files w1 = os.files w) as Hw1
    by (unfold w1; destruct (flag.verbose v); [apply printSBOM_files | reflexivity]).
  destruct (String.eqb _ "csv").
  { destruct (writeSBOMToCSV sbom (nth 1 rest "") w1) as [w2 [err|]].
    - split; [discriminate | intros _ Hw; now destruct (Hw err)].
    - split; [discriminate | now intros []]. }
  destruct (String.eqb _ "json").
  { destruct (writeSBOMToJSON sbom (nth 1 rest "") w1) as [w2 [err|]].
    - split; [discriminate | intros _ Hw; now destruct (Hw err)].
    - split; [discriminate | now intros []]. }
  destruct (String.eqb _ "xml").
  { destruct (writeSBOMToXML sbom (nth 1 rest "") w1) as [w2 [err|]].
    - split; [discriminate | intros _ Hw; now destruct (Hw err)].
    - split; [discriminate | now intros []]. }
  split; [discriminate | now intros _ _].
Qed.

Lemma main_parsed_frame (calls : list tfconfig.ModuleCall) (prog : string)
    (v : flag.values) (rest : list string) (w : os.World) (path : string) :
  path ≠ nth 1 rest "" →
  os.files (main_parsed unicode_ToLower calls prog v rest w).1 !! path = os.files w !! path.
Proof.
  intros Hne. unfold main_parsed. destruct (length rest <? 2); [reflexivity|].
  destruct (generateSBOM_run_cases calls (nth 0 rest "")) as [(err & -> & _)|(sbom & -> & _)];
    [reflexivity|].
  set (w1 := if flag.verbose v then printSBOM sbom w else w).
  assert (os.files w1 = os.files w) as Hw1
    by (unfold w1; destruct (flag.verbose v); [apply printSBOM_files | reflexivity]).
  destruct (emitters_frame sbom (nth 1 rest "") path w1 Hne) as (Hc & Hj & Hx).
  rewrite Hw1 in Hc, Hj, Hx.
  destruct (String.eqb _ "csv").
  { destruct (writeSBOMToCSV sbom (nth 1 rest "") w1) as [w2 [err|]]; exact Hc. }
  destruct (String.eqb _ "json").
  { destruct (writeSBOMToJSON sbom (nth 1 rest "") w1) as [w2 [err|]]; exact Hj. }
  destruct (String.eqb _ "xml").
  { destruct (writeSBOMToXML sbom (nth 1 rest "") w1) as [w2 [err|]]; exact Hx. }
  cbn [fst]. now rewrite Hw1.
Qed.

End Main_properties.

(** X9: a run of [main] that ends before an emitter is called leaves the
    file system as it was: after a bad flag or [-h], with missing
    arguments, with a configuration that does not load and with an
    unsupported format no file is created or changed. These are the runs
    that end neither by returning nor in the fatal error
    [Error writing SBOM]. The nil dereference after [generateSBOM] never
    happens. *)
Theorem main_failure_keeps_files `{tfconfig.Loader} (unicode_ToLower : N → N)
    (calls : list tfconfig.ModuleCall) (prog : string) (arguments : list string)
    (w : os.World) :
  let r := main_run unicode_ToLower calls prog arguments w in
  r.2 ≠ Panic
  ∧ (r.2 ≠ Return →
     (∀ err, r.2 ≠ Fatalf ("Error writing SBOM: " +:+ err)) →
     os.files r.1 = os.files w).
Proof.
  cbv zeta. unfold main_run. destruct (flag.Parse flag.defaults arguments) as [v rest| |].
  - apply main_parsed_before_emitter.
  - split; [discriminate | reflexivity].
  - split; [discriminate | reflexivity].
Qed.

Lemma main_failure_keeps_files_witness :
  os.files (main_run (H := example_loader) (λ r, r) [call_vpc; call_s3] "terraform-sbom"
              ["-output"; "yaml"; "path"; "out"] world_with_file).1
  = os.files world_with_file.
Proof.
  apply (main_failure_keeps_files (H := example_loader) (λ r, r) [call_vpc; call_s3]
           "terraform-sbom" ["-output"; "yaml"; "path"; "out"] world_with_file).
  - vm_compute. discriminate.
  - intros err Herr. vm_compute in Herr. discriminate Herr.
Defined.

(** X10: [main] changes no path other than its second positional
    argument. *)
Theorem main_touches_only_output `{tfconfig.Loader} (unicode_ToLower : N → N)
    (calls : list tfconfig.ModuleCall) (prog : string) (arguments : list string)
    (w : os.World) (v : flag.values) (configPath outputPath path : string)
    (rest : list string) :
  flag.Parse flag.defaults arguments = flag.Done v (configPath :: outputPath :: rest) →
  path ≠ outputPath →
  os.files (main_run unicode_ToLower calls prog arguments w).1 !! path = os.files w !! path.
Proof.
  intros Hp Hne. unfold main_run. rewrite Hp. now apply main_parsed_frame.
Qed.

Lemma main_touches_only_output_witness :
  os.files (main_run (H := example_loader) (λ r, r) [call_vpc; call_s3] "terraform-sbom"
              ["-output"; "json"; "path"; "new.json"] world_with_file).1 !! "out"
  = os.files world_with_file !! "out".
Proof.
  apply (main_touches_only_output (H := example_loader) (λ r, r) [call_vpc; call_s3]
           "terraform-sbom" ["-output"; "json"; "path"; "new.json"] world_with_file
           {| flag.verbose := false; flag.outputFormat := "json" |} "path" "new.json" "out" []).
  - reflexivity.
  - discriminate.
Defined.

(** X11: with fewer than two command-line arguments [main] changes nothing
    and does not succeed: it ends in the usage message of [log.Fatalf], or
    in the exit of the flag package for [-h] or a bad flag. *)
Theorem main_too_few_arguments `{tfconfig.Loader} (unicode_ToLower : N → N)
    (calls : list tfconfig.ModuleCall) (prog : string) (arguments : list string)
    (w : os.World) :
  length arguments < 2 →
  let r := main_run unicode_ToLower calls prog arguments w in
  r.1 = w
  ∧ (r.2 = Fatalf ("Usage: " +:+ filepath.Base prog
                   +:+ " <path-to-terraform-config> <output-file>")
     ∨ r.2 = FlagHelp ∨ r.2 = FlagError).
Proof.
  intros Hlen. cbv zeta. unfold main_run.
  destruct (flag.Parse flag.defaults arguments) as [v rest| |] eqn:Hp.
  - apply (Parse_rest_length (length arguments)) in Hp; [|lia].
    unfold main_parsed. destruct (Nat.ltb_spec (length rest) 2); [|lia].
    split; [reflexivity | now left].
  - split; [reflexivity | now right; left].
  - split; [reflexivity | now right; right].
Qed.

Lemma main_too_few_arguments_witness :
  let r := main_run (H := example_loader) (λ r, r) [call_vpc; call_s3]
             "/usr/local/bin/terraform-sbom" ["path"] empty_world in
  r.1 = empty_world
  ∧ (r.2 = Fatalf ("Usage: " +:+ filepath.Base "/usr/local/bin/terraform-sbom"
                   +:+ " <path-to-terraform-config> <output-file>")
     ∨ r.2 = FlagHelp ∨ r.2 = FlagError).
Proof.
  apply (main_too_few_arguments (H := example_loader) (λ r, r) [call_vpc; call_s3]
           "/usr/local/bin/terraform-sbom" ["path"] empty_world).
  simpl. lia.
Defined.

(** X12: the flags are read only before the first positional argument.
    When the first argument is the configuration directory, everything
    after the output path is ignored, options included, and a loaded
    configuration is written as CSV. *)
Theorem main_ignores_trailing_arguments `{tfconfig.Loader} (unicode_ToLower : N → N)
    (calls : list tfconfig.ModuleCall) (prog configPath outputPath : string)
    (extra : list string) (w : os.World) :
  flag.flag_name configPath = None →
  main_run unicode_ToLower calls prog (configPath :: outputPath :: extra) w
  = main_run unicode_ToLower calls prog [configPath; outputPath] w
  ∧ ∀ sbom, generateSBOM_run calls configPath = (Some sbom, None) →
      main_run unicode_ToLower calls prog (configPath :: outputPath :: extra) w
      = match writeSBOMToCSV sbom outputPath w with
        | (w', None) => (w', Return)
        | (w', Some err) => (w', Fatalf ("Error writing SBOM: " +:+ err))
        end.
Proof.
  intros Hcfg. unfold main_run. rewrite !(Parse_not_flag _ _ _ Hcfg).
  split; [reflexivity|]. intros sbom Hrun. unfold main_parsed. simpl.
  rewrite Hrun. now destruct (writeSBOMToCSV sbom outputPath w) as [w' [err|]].
Qed.

Lemma main_ignores_trailing_arguments_witness :
  main_run (H := example_loader) (λ r, r) [call_vpc; call_s3] "terraform-sbom"
    ["path"; "out.json"; "-output"; "json"] empty_world
  = main_run (H := example_loader) (λ r, r) [call_vpc; call_s3] "terraform-sbom"
      ["path"; "out.json"] empty_world
  ∧ ∀ sbom, generateSBOM_run (H := example_loader) [call_vpc; call_s3] "path"
            = (Some sbom, None) →
      main_run (H := example_loader) (λ r, r) [call_vpc; call_s3] "terraform-sbom"
        ["path"; "out.json"; "-output"; "json"] empty_world
      = match writeSBOMToCSV sbom "out.json" empty_world with
        | (w', None) => (w', Return)
        | (w', Some err) => (w', Fatalf ("Error writing SBOM: " +:+ err))
        end.
Proof.
  apply (main_ignores_trailing_arguments (H := example_loader) (λ r, r)
           [call_vpc; call_s3] "terraform-sbom" "path" "out.json" ["-output"; "json"]
           empty_world).
  reflexivity.
Defined.

(** X13: when the configuration does not load, [main] ends in
    [log.Fatalf] with the error of [generateSBOM]; nothing is printed, even
    with [-v], and nothing is written. *)
Theorem main_load_error `{tfconfig.Loader} (unicode_ToLower : N → N)
    (calls : list tfconfig.ModuleCall) (prog : string) (arguments : list string)
    (w : os.World) (v : flag.values) (configPath outputPath : string)
    (rest : list string) :
  flag.Parse flag.defaults arguments = flag.Done v (configPath :: outputPath :: rest) →
  tfconfig.HasErrors (tfconfig.LoadModule configPath).2 = true →
  main_run unicode_ToLower calls prog arguments w
  = (w, Fatalf ("Error generating SBOM: failed to load Terraform module: "
                +:+ tfconfig.Err (tfconfig.LoadModule configPath).2)).
Proof.
  intros Hp Herr. unfold main_run. rewrite Hp. unfold main_parsed.
  cbn [length nth Nat.ltb Nat.leb]. now rewrite generateSBOM_run_error.
Qed.

Lemma main_load_error_witness :
  main_run (H := example_loader) (λ r, r) [] "terraform-sbom"
    ["-v"; "missing"; "out.csv"] empty_world
  = (empty_world,
     Fatalf ("Error generating SBOM: failed to load Terraform module: "
             +:+ tfconfig.Err (tfconfig.LoadModule (Loader := example_loader) "missing").2)).
Proof.
  apply (main_load_error (H := example_loader) (λ r, r) [] "terraform-sbom"
           ["-v"; "missing"; "out.csv"] empty_world
           {| flag.verbose := true; flag.outputFormat := "csv" |} "missing" "out.csv" []).
  - reflexivity.
  - reflexivity.
Defined.

Lemma Parse_same_format (unicode_ToLower : N → N) (n : nat) :
  ∀ args v1 v2,
    length args ≤ n → same_format unicode_ToLower v1 v2 →
    match flag.Parse v1 args, flag.Parse v2 args with
    | flag.Done a r1, flag.Done b r2 => r1 = r2 ∧ same_format unicode_ToLower a b
    | flag.Help, flag.Help | flag.Failed, flag.Failed => True
    | _, _ => False
    end.
Proof.
  induction n as [|n IH]; intros [|s args] v1 v2 Hn Hsame; simpl in Hn; try lia;
    try (split; [reflexivity | exact Hsame]).
  cbn [flag.Parse]. destruct (flag.flag_name s) as [[name|]|];
    try (split; [reflexivity | exact Hsame]).
  destruct (_ || _); [exact I|].
  destruct (flag.split_value name) as [name' value].
  destruct Hsame as [Hv Hf].
  destruct (String.eqb name' "v").
  { destruct value as [text|].
    - destruct (flag.ParseBool text); [|exact I].
      apply IH; [lia | split; [reflexivity | exact Hf]].
    - apply IH; [lia | split; [reflexivity | exact Hf]]. }
  destruct (String.eqb name' "output").
  { destruct value as [text|].
    - apply IH; [lia | split; [exact Hv | now left]].
    - destruct args as [|text args]; [exact I|].
      apply IH; [simpl in Hn; lia | split; [exact Hv | now left]]. }
  destruct (_ || _); exact I.
Qed.

Lemma main_parsed_same_format `{tfconfig.Loader} (unicode_ToLower : N → N)
    (calls : list tfconfig.ModuleCall) (prog : string) (v1 v2 : flag.values)
    (rest : list string) (w : os.World) :
  same_format unicode_ToLower v1 v2 →
  main_parsed unicode_ToLower calls prog v1 rest w
  = main_parsed unicode_ToLower calls prog v2 rest w.
Proof.
  destruct v1 as [b1 f1], v2 as [b2 f2]. intros [Hv [Hf|[Hl Hs]]]; simpl in *.
  - now subst.
  - subst b2. unfold main_parsed. cbn [flag.verbose flag.outputFormat].
    destruct (length rest <? 2); [reflexivity|].
    destruct (generateSBOM_run calls (nth 0 rest "")) as [[sbom|] [err|]]; try reflexivity.
    rewrite <- Hl. unfold supported in Hs.
    destruct (String.eqb (ToLower unicode_ToLower f1) "csv"); [reflexivity|].
    destruct (String.eqb (ToLower unicode_ToLower f1) "json"); [reflexivity|].
    destruct (String.eqb (ToLower unicode_ToLower f1) "xml"); [reflexivity|].
    discriminate.
Qed.

(** X14: the value of [-output] is compared after [strings.ToLower]: two
    values with the same lower case, one of csv, json and xml, give the
    same run, whatever the other arguments are. *)
Theorem main_output_case_insensitive `{tfconfig.Loader} (unicode_ToLower : N → N)
    (calls : list tfconfig.ModuleCall) (prog format format' : string)
    (arguments : list string) (w : os.World) :
  ToLower unicode_ToLower format = ToLower unicode_ToLower format' →
  supported (ToLower unicode_ToLower format) = true →
  main_run unicode_ToLower calls prog ("-output" :: format :: arguments) w
  = main_run unicode_ToLower calls prog ("-output" :: format' :: arguments) w.
Proof.
  intros Hl Hs. unfold main_run.
  change (flag.Parse flag.defaults ("-output" :: format :: arguments))
    with (flag.Parse {| flag.verbose := false; flag.outputFormat := format |} arguments).
  change (flag.Parse flag.defaults ("-output" :: format' :: arguments))
    with (flag.Parse {| flag.verbose := false; flag.outputFormat := format' |} arguments).
  pose proof (Parse_same_format unicode_ToLower (length arguments) arguments
                {| flag.verbose := false; flag.outputFormat := format |}
                {| flag.verbose := false; flag.outputFormat := format' |}
                (le_n _)) as Hp.
  destruct (flag.Parse _ arguments) as [a r1| |], (flag.Parse _ arguments) as [b r2| |];
    try (exfalso; apply Hp; split; [reflexivity | right; split; assumption]);
    try reflexivity.
  destruct Hp as [-> Hab]; [split; [reflexivity | right; split; assumption]|].
  now apply main_parsed_same_format.
Qed.

Lemma main_output_case_insensitive_witness :
  main_run (H := example_loader) (λ r, r) [call_vpc; call_s3] "terraform-sbom"
    ["-output"; "JSON"; "-v"; "path"; "out.json"] empty_world
  = main_run (H := example_loader) (λ r, r) [call_vpc; call_s3] "terraform-sbom"
      ["-output"; "json"; "-v"; "path"; "out.json"] empty_world.
Proof.
  apply (main_output_case_insensitive (H := example_loader) (λ r, r) [call_vpc; call_s3]
           "terraform-sbom" "JSON" "json" ["-v"; "path"; "out.json"] empty_world);
    reflexivity.
Defined.

Lemma writeSBOMToCSV_files (sbom : SBOM) (outputPath : string) (w1 w2 : os.World) :
  os.files w1 = os.files w2 →
  os.files (writeSBOMToCSV sbom outputPath w1).1
  = os.files (writeSBOMToCSV sbom outputPath w2).1.
Proof.
  intros Hw. destruct (os.files w2 !! outputPath) as [[content|]|] eqn:Hf.
  - rewrite (writeSBOMToCSV_existing _ _ _ w2 Hf).
    rewrite (writeSBOMToCSV_existing _ _ content w1) by now rewrite Hw.
    cbn [fst os.files]. now rewrite Hw.
  - rewrite (writeSBOMToCSV_directory _ _ w2 Hf).
    rewrite (writeSBOMToCSV_directory _ _ w1) by now rewrite Hw.
    exact Hw.
  - rewrite (writeSBOMToCSV_fresh _ _ w2 Hf).
    rewrite (writeSBOMToCSV_fresh _ _ w1) by now rewrite Hw.
    cbn [fst os.files]. now rewrite Hw.
Qed.

Lemma writeSBOMToJSON_files (sbom : SBOM) (outputPath : string) (w1 w2 : os.World) :
  os.files w1 = os.files w2 →
  os.files (writeSBOMToJSON sbom outputPath w1).1
  = os.files (writeSBOMToJSON sbom outputPath w2).1.
Proof.
  intros Hw. destruct (not_directory w2 outputPath) as [Hd|Hd].
  - rewrite (writeSBOMToJSON_directory _ _ w2 Hd).
    rewrite (writeSBOMToJSON_directory _ _ w1) by now rewrite Hw.
    exact Hw.
  - rewrite (writeSBOMToJSON_file _ _ w2 Hd).
    rewrite (writeSBOMToJSON_file _ _ w1) by now rewrite Hw.
    cbn [fst os.files]. now rewrite Hw.
Qed.

Lemma writeSBOMToXML_files (sbom : SBOM) (outputPath : string) (w1 w2 : os.World) :
  os.files w1 = os.files w2 →
  os.files (writeSBOMToXML sbom outputPath w1).1
  = os.files (writeSBOMToXML sbom outputPath w2).1.
Proof.
  intros Hw. destruct (not_directory w2 outputPath) as [Hd|Hd].
  - rewrite (writeSBOMToXML_directory _ _ w2 Hd).
    rewrite (writeSBOMToXML_directory _ _ w1) by now rewrite Hw.
    exact Hw.
  - rewrite (writeSBOMToXML_file _ _ w2 Hd).
    rewrite (writeSBOMToXML_file _ _ w1) by now rewrite Hw.
    cbn [fst os.files]. now rewrite Hw.
Qed.

(** X15: when [main] returns, the command line had two positional
    arguments after the flags, [generateSBOM] on the first returned an
    SBOM, and the file system is the one left by the emitter of the chosen
    format run on that SBOM and the second argument. *)
Theorem main_success `{tfconfig.Loader} (unicode_ToLower : N → N) (prog : string)
    (arguments : list string) (w : os.World) (r : os.World * exit) :
  main unicode_ToLower prog arguments w r →
  r.2 = Return →
  ∃ v configPath outputPath rest sbom,
    flag.Parse flag.defaults arguments = flag.Done v (configPath :: outputPath :: rest)
    ∧ generateSBOM configPath (Some sbom, None)
    ∧ ((ToLower unicode_ToLower (flag.outputFormat v) = "csv"
        ∧ os.files r.1 = os.files (writeSBOMToCSV sbom outputPath w).1)
       ∨ (ToLower unicode_ToLower (flag.outputFormat v) = "json"
          ∧ os.files r.1 = os.files (writeSBOMToJSON sbom outputPath w).1)
       ∨ (ToLower unicode_ToLower (flag.outputFormat v) = "xml"
          ∧ os.files r.1 = os.files (writeSBOMToXML sbom outputPath w).1)).
Proof.
  intros [calls Hrange]. unfold main_run.
  destruct (flag.Parse flag.defaults arguments) as [v rest| |] eqn:Hp; try discriminate.
  unfold main_parsed. destruct (Nat.ltb_spec (length rest) 2) as [|Hlen]; [discriminate|].
  destruct rest as [|configPath [|outputPath rest]]; simpl in Hlen; try lia.
  cbn [nth]. specialize (Hrange v configPath (outputPath :: rest) eq_refl).
  pose proof (generateSBOM_intro configPath calls Hrange) as Hgen.
  destruct (generateSBOM_run calls configPath) as [[sbom|] [err|]]; try discriminate.
  set (w1 := if flag.verbose v then printSBOM sbom w else w).
  assert (os.files w1 = os.files w) as Hw1
    by (unfold w1; destruct (flag.verbose v); [apply printSBOM_files | reflexivity]).
  intros Hret. exists v, configPath, outputPath, rest, sbom.
  split; [reflexivity|]. split; [exact Hgen|].
  destruct (String.eqb_spec (ToLower unicode_ToLower (flag.outputFormat v)) "csv") as [Hc|_].
  { left. split; [exact Hc|]. rewrite <- (writeSBOMToCSV_files sbom outputPath w1 w Hw1).
    now destruct (writeSBOMToCSV sbom outputPath w1) as [w2 [err|]]. }
  destruct (String.eqb_spec (ToLower unicode_ToLower (flag.outputFormat v)) "json") as [Hj|_].
  { right; left. split; [exact Hj|]. rewrite <- (writeSBOMToJSON_files sbom outputPath w1 w Hw1).
    now destruct (writeSBOMToJSON sbom outputPath w1) as [w2 [err|]]. }
  destruct (String.eqb_spec (ToLower unicode_ToLower (flag.outputFormat v)) "xml") as [Hx|_].
  { right; right. split; [exact Hx|]. rewrite <- (writeSBOMToXML_files sbom outputPath w1 w Hw1).
    now destruct (writeSBOMToXML sbom outputPath w1) as [w2 [err|]]. }
  discriminate Hret.
Qed.

Lemma example_main_json :
  main (H := example_loader) (λ r, r) "terraform-sbom"
    ["-output"; "json"; "path"; "out.json"] empty_world
    (main_run (H := example_loader) (λ r, r) [call_vpc; call_s3] "terraform-sbom"
       ["-output"; "json"; "path"; "out.json"] empty_world).
Proof.
  apply main_intro. intros v configPath rest Hp. vm_compute in Hp.
  injection Hp as _ <- _. exact example_range_vpc_s3.
Qed.

Lemma main_success_witness :
  let r := main_run (H := example_loader) (λ r, r) [call_vpc; call_s3] "terraform-sbom"
             ["-output"; "json"; "path"; "out.json"] empty_world in
  ∃ v configPath outputPath rest sbom,
    flag.Parse flag.defaults ["-output"; "json"; "path"; "out.json"]
    = flag.Done v (configPath :: outputPath :: rest)
    ∧ generateSBOM (H := example_loader) configPath (Some sbom, None)
    ∧ ((ToLower (λ r, r) (flag.outputFormat v) = "csv"
        ∧ os.files r.1 = os.files (writeSBOMToCSV sbom outputPath empty_world).1)
       ∨ (ToLower (λ r, r) (flag.outputFormat v) = "json"
          ∧ os.files r.1 = os.files (writeSBOMToJSON sbom outputPath empty_world).1)
       ∨ (ToLower (λ r, r) (flag.outputFormat v) = "xml"
          ∧ os.files r.1 = os.files (writeSBOMToXML sbom outputPath empty_world).1)).
Proof.
  apply (main_success (H := example_loader) (λ r, r) "terraform-sbom"
           ["-output"; "json"; "path"; "out.json"] empty_world).
  - exact example_main_json.
  - vm_compute. reflexivity.
Defined.

(** ** The JSON emitter read back *)

Lemma isASCII_cons (c : ascii) (s : string) :
  isASCII (String c s) = true → (N_of_ascii c <? 128)%N = true ∧ isASCII s = true.
Proof. simpl. now intros [? ?]%andb_true_iff. Qed.

Lemma unquote_appendString (s rest : string) :
  isASCII s = true →
  decode.unquote 0 (json.appendString_loop 0 true s +:+ String dquote rest) = Some (s, rest).
Proof.
  induction s as [|c s IH]; intros Hs; [reflexivity|].
  apply isASCII_cons in Hs as [Hc Hs]. specialize (IH Hs).
  destruct c as [b0 b1 b2 b3 b4 b5 b6 b7].
  destruct b7; [destruct b0, b1, b2, b3, b4, b5, b6; discriminate Hc|]. clear Hc.
  destruct b0, b1, b2, b3, b4, b5, b6; simpl; rewrite ?IH; reflexivity.
Qed.

Lemma appendIndent_string (s rest : string) (need : bool) (d n : nat) :
  isASCII s = true →
  json.appendIndent_loop
    {| json.in_string := true; json.escaped := false; json.needIndent := need;
       json.depth := d; json.nesting := n |} "" "  "
    (json.appendString_loop 0 true s +:+ String dquote rest)
  = json.appendString_loop 0 true s +:+
    String dquote
      (json.appendIndent_loop
         {| json.in_string := false; json.escaped := false; json.needIndent := need;
            json.depth := d; json.nesting := n |} "" "  " rest).
Proof.
  induction s as [|c s IH]; intros Hs; [reflexivity|].
  apply isASCII_cons in Hs as [Hc Hs]. specialize (IH Hs).
  destruct c as [b0 b1 b2 b3 b4 b5 b6 b7].
  destruct b7; [destruct b0, b1, b2, b3, b4, b5, b6; discriminate Hc|]. clear Hc.
  destruct b0, b1, b2, b3, b4, b5, b6; simpl; rewrite ?IH; reflexivity.
Qed.

Lemma appendIndent_loop_cons (prefix indent : string) (st : json.indent_state)
    (c : ascii) (rest : string) :
  json.appendIndent_loop st prefix indent (String c rest)
  = (indent_step prefix indent st c).1
    +:+ json.appendIndent_loop (indent_step prefix indent st c).2 prefix indent rest.
Proof.
  unfold indent_step. cbn [json.appendIndent_loop].
  destruct (json.in_string st); [destruct (json.escaped st); reflexivity|].
  destruct (json.is_space c); [destruct (_ =? _); reflexivity|].
  cbv zeta.
  destruct (Ascii.eqb c "{" || Ascii.eqb c "[");
    [cbn [fst snd]; rewrite append_assoc; reflexivity|].
  destruct (Ascii.eqb c ","); [cbn [fst snd]; rewrite append_assoc; reflexivity|].
  destruct (Ascii.eqb c ":"); [cbn [fst snd]; rewrite append_assoc; reflexivity|].
  destruct (Ascii.eqb c "}" || Ascii.eqb c "]").
  - destruct (if json.needIndent st && negb true then false else json.needIndent st);
      cbn [fst snd]; rewrite ?append_assoc; reflexivity.
  - cbn [fst snd]; rewrite append_assoc; reflexivity.
Qed.

Lemma appendIndent_run (prefix indent : string) (a b : string) (st : json.indent_state) :
  json.appendIndent_loop st prefix indent (a +:+ b)
  = (indent_run prefix indent st a).1
    +:+ json.appendIndent_loop (indent_run prefix indent st a).2 prefix indent b.
Proof.
  revert st; induction a as [|c a IH]; intros st; [reflexivity|].
  change (String c a +:+ b) with (String c (a +:+ b)).
  rewrite appendIndent_loop_cons, IH. cbn [indent_run].
  destruct (indent_step prefix indent st c) as [out st']. cbn [fst snd].
  destruct (indent_run prefix indent st' a) as [out' st''] eqn:Hrun.
  cbn [fst snd]. now rewrite append_assoc.
Qed.
Lemma appendString_app (s rest : string) :
  json.appendString s +:+ rest
  = String dquote (json.appendString_loop 0 true s +:+ String dquote rest).
Proof. unfold json.appendString. now rewrite append_assoc. Qed.

Lemma appendIndent_value (s rest : string) (d n : nat) :
  isASCII s = true →
  json.appendIndent_loop
    {| json.in_string := false; json.escaped := false; json.needIndent := false;
       json.depth := d; json.nesting := n |} "" "  " (json.appendString s +:+ rest)
  = json.appendString s +:+
    json.appendIndent_loop
      {| json.in_string := false; json.escaped := false; json.needIndent := false;
         json.depth := d; json.nesting := n |} "" "  " rest.
Proof.
  intros Hs. rewrite !appendString_app, appendIndent_loop_cons.
  change (indent_step "" "  " _ dquote)
    with (String dquote EmptyString,
          {| json.in_string := true; json.escaped := false; json.needIndent := false;
             json.depth := d; json.nesting := n |}).
  cbn [fst snd]. now rewrite appendIndent_string.
Qed.

(** The literal [a] is run through the indenter. *)
Ltac run_literal a :=
  rewrite (appendIndent_run "" "  " a);
  match goal with
  | |- context [indent_run "" "  " ?st a] =>
      let r := eval vm_compute in (indent_run "" "  " st a) in
      change (indent_run "" "  " st a) with r
  end;
  cbn [fst snd].

Lemma json_Marshal_ModuleInfo_segments (m : ModuleInfo) (rest : string) :
  json_Marshal_ModuleInfo m +:+ rest
  = ("{" +:+ json.appendString "name" +:+ ":")
    +:+ json.appendString (Name m)
    +:+ ("," +:+ json.appendString "source" +:+ ":")
    +:+ json.appendString (Source m)
    +:+ ("," +:+ json.appendString "version" +:+ ":")
    +:+ json.appendString (Version m)
    +:+ ("," +:+ json.appendString "config" +:+ ":")
    +:+ json.appendString (Config m)
    +:+ "}" +:+ rest.
Proof. unfold json_Marshal_ModuleInfo. now rewrite !append_assoc. Qed.

Lemma appendIndent_module (m : ModuleInfo) (rest : string) (need : bool) :
  ascii_fields m = true →
  json.appendIndent_loop
    {| json.in_string := false; json.escaped := false; json.needIndent := need;
       json.depth := if need then 1 else 2; json.nesting := 2 |} "" "  "
    (json_Marshal_ModuleInfo m +:+ rest)
  = (if need then LF +:+ "    " else "") +:+ json_pretty_module m +:+
    json.appendIndent_loop
      {| json.in_string := false; json.escaped := false; json.needIndent := false;
         json.depth := 2; json.nesting := 2 |} "" "  " rest.
Proof.
  unfold ascii_fields. intros H.
  apply andb_true_iff in H as [H Hc]. apply andb_true_iff in H as [H Hv].
  apply andb_true_iff in H as [Hn Hs].
  rewrite json_Marshal_ModuleInfo_segments.
  destruct need;
    run_literal ("{" +:+ json.appendString "name" +:+ ":");
    rewrite (appendIndent_value _ _ _ _ Hn);
    run_literal ("," +:+ json.appendString "source" +:+ ":");
    rewrite (appendIndent_value _ _ _ _ Hs);
    run_literal ("," +:+ json.appendString "version" +:+ ":");
    rewrite (appendIndent_value _ _ _ _ Hv);
    run_literal ("," +:+ json.appendString "config" +:+ ":");
    rewrite (appendIndent_value _ _ _ _ Hc);
    run_literal "}";
    unfold json_pretty_module; rewrite !append_assoc; reflexivity.
Qed.
Lemma appendIndent_modules (ms : list ModuleInfo) :
  ∀ (m : ModuleInfo) (rest : string) (need : bool),
    forallb ascii_fields (m :: ms) = true →
    json.appendIndent_loop
      {| json.in_string := false; json.escaped := false; json.needIndent := need;
         json.depth := if need then 1 else 2; json.nesting := 2 |} "" "  "
      (Join (json_Marshal_ModuleInfo <$> (m :: ms)) "," +:+ rest)
    = (if need then LF +:+ "    " else "")
      +:+ Join (json_pretty_module <$> (m :: ms)) ("," +:+ LF +:+ "    ")
      +:+ json.appendIndent_loop
            {| json.in_string := false; json.escaped := false; json.needIndent := false;
               json.depth := 2; json.nesting := 2 |} "" "  " rest.
Proof.
  induction ms as [|m' ms IH]; intros m rest need Hall;
    apply andb_true_iff in Hall as [Hm Hms].
  - cbn [fmap list_fmap Join]. now apply appendIndent_module.
  - change (Join (json_Marshal_ModuleInfo <$> m :: m' :: ms) ",")
      with (json_Marshal_ModuleInfo m +:+ "," +:+ Join (json_Marshal_ModuleInfo <$> m' :: ms) ",").
    change (Join (json_pretty_module <$> m :: m' :: ms) ("," +:+ LF +:+ "    "))
      with (json_pretty_module m +:+ ("," +:+ LF +:+ "    ")
            +:+ Join (json_pretty_module <$> m' :: ms) ("," +:+ LF +:+ "    ")).
    rewrite !append_assoc. rewrite (appendIndent_module _ _ _ Hm).
    run_literal ",". rewrite (IH m' rest false Hms).
    rewrite ?append_assoc. reflexivity.
Qed.

Lemma appendIndent_run_all (a : string) (st : json.indent_state) :
  json.appendIndent_loop st "" "  " a = (indent_run "" "  " st a).1.
Proof.
  rewrite <- (append_nil_r a) at 1. rewrite appendIndent_run. apply append_nil_r.
Qed.

Lemma json_Marshal_segments (x : xml.Name) (m : ModuleInfo) (ms : list ModuleInfo) :
  json_Marshal {| XMLName := x; Modules := m :: ms |} +:+ LF
  = ("{" +:+ json.appendString "modules" +:+ ":" +:+ "[")
    +:+ Join (json_Marshal_ModuleInfo <$> m :: ms) ","
    +:+ ("]" +:+ "}" +:+ LF).
Proof. unfold json_Marshal. cbn [Modules]. now rewrite !append_assoc. Qed.

Lemma json_Encode_pretty (sbom : SBOM) :
  forallb ascii_fields (Modules sbom) = true → json_Encode sbom = json_pretty sbom.
Proof.
  destruct sbom as [x [|m ms]]; cbn [Modules]; intros Hall; [vm_compute; reflexivity|].
  unfold json_Encode, json_pretty, json.appendIndent. cbn [Modules].
  rewrite json_Marshal_segments.
  run_literal ("{" +:+ json.appendString "modules" +:+ ":" +:+ "[").
  rewrite (appendIndent_modules ms m _ true Hall).
  rewrite (appendIndent_run_all ("]" +:+ "}" +:+ LF)).
  rewrite ?append_assoc. reflexivity.
Qed.
Lemma parse_string_value (fuel : nat) (s v rest : string) :
  decode.skip_space s = json.appendString v +:+ rest →
  isASCII v = true →
  decode.parse_value (S fuel) s = Some (decode.Str v, rest).
Proof.
  intros Hs Hv. cbn [decode.parse_value]. rewrite Hs, appendString_app.
  rewrite Ascii.eqb_refl, (unquote_appendString _ _ Hv). reflexivity.
Qed.

Lemma parse_member (fuel : nat) (s key v rest : string) (acc : list (string * decode.value)) :
  decode.skip_space s = json.appendString key +:+ ": " +:+ json.appendString v +:+ rest →
  isASCII key = true → isASCII v = true →
  decode.parse_members (S (S fuel)) s acc
  = match decode.skip_space rest with
    | String "," r => decode.parse_members (S fuel) r (acc ++ [(key, decode.Str v)])
    | String "}" r => Some (decode.Object (acc ++ [(key, decode.Str v)]), r)
    | _ => None
    end.
Proof.
  intros Hs Hk Hv. cbn [decode.parse_members]. rewrite Hs, appendString_app.
  rewrite Ascii.eqb_refl, (unquote_appendString _ _ Hk).
  change (decode.skip_space (": " +:+ json.appendString v +:+ rest))
    with (String ":" (" " +:+ json.appendString v +:+ rest)).
  cbv iota. rewrite (parse_string_value fuel _ v rest); [reflexivity | | exact Hv].
  rewrite appendString_app. reflexivity.
Qed.
Lemma skip_space_literal (s rest : string) :
  decode.skip_space (json.appendString s +:+ rest) = json.appendString s +:+ rest.
Proof. rewrite appendString_app. reflexivity. Qed.

Lemma skip_space_indent6 (s rest : string) :
  decode.skip_space (LF +:+ "      " +:+ json.appendString s +:+ rest)
  = json.appendString s +:+ rest.
Proof. rewrite appendString_app. reflexivity. Qed.

Lemma parse_value_object (fuel : nat) (s t : string) :
  decode.skip_space s = String "{" t →
  (∀ r, decode.skip_space t ≠ String "}" r) →
  decode.parse_value (S fuel) s = decode.parse_members fuel (decode.skip_space t) [].
Proof.
  intros Hs Ht. cbn [decode.parse_value]. rewrite Hs. cbv iota beta.
  destruct (decode.skip_space t) as [|c r]; [reflexivity|].
  destruct c as [b0 b1 b2 b3 b4 b5 b6 b7].
  destruct b0, b1, b2, b3, b4, b5, b6, b7; try reflexivity.
  exfalso. now apply (Ht r).
Qed.

Lemma parse_value_array (fuel : nat) (s t : string) :
  decode.skip_space s = String "[" t →
  (∀ r, decode.skip_space t ≠ String "]" r) →
  decode.parse_value (S fuel) s = decode.parse_elements fuel (decode.skip_space t) [].
Proof.
  intros Hs Ht. cbn [decode.parse_value]. rewrite Hs. cbv iota beta.
  destruct (decode.skip_space t) as [|c r]; [reflexivity|].
  destruct c as [b0 b1 b2 b3 b4 b5 b6 b7].
  destruct b0, b1, b2, b3, b4, b5, b6, b7; try reflexivity.
  exfalso. now apply (Ht r).
Qed.

Lemma parse_module (fuel : nat) (s rest : string) (m : ModuleInfo) :
  decode.skip_space s = json_pretty_module m +:+ rest →
  ascii_fields m = true →
  decode.parse_value (S (S (S (S (S (S fuel)))))) s = Some (json_value_of m, rest).
Proof.
  unfold ascii_fields. intros Hs H.
  apply andb_true_iff in H as [H Hc]. apply andb_true_iff in H as [H Hv].
  apply andb_true_iff in H as [Hn Hso].
  unfold json_pretty_module in Hs. rewrite !append_assoc in Hs.
  erewrite parse_value_object;
    [ | exact Hs | intros r; rewrite skip_space_indent6, appendString_app; discriminate].
  rewrite skip_space_indent6.
  erewrite parse_member; [ | apply skip_space_literal | reflexivity | exact Hn].
  change (decode.skip_space ("," +:+ ?x)) with (String "," x). cbv iota beta.
  erewrite parse_member; [ | apply skip_space_indent6 | reflexivity | exact Hso].
  change (decode.skip_space ("," +:+ ?x)) with (String "," x). cbv iota beta.
  erewrite parse_member; [ | apply skip_space_indent6 | reflexivity | exact Hv].
  change (decode.skip_space ("," +:+ ?x)) with (String "," x). cbv iota beta.
  erewrite parse_member; [ | apply skip_space_indent6 | reflexivity | exact Hc].
  reflexivity.
Qed.
Lemma parse_elements_step (fuel : nat) (s : string) (acc : list decode.value) :
  decode.parse_elements (S fuel) s acc
  = match decode.parse_value fuel s with
    | Some (v, r) =>
        match decode.skip_space r with
        | String "," r' => decode.parse_elements fuel r' (acc ++ [v])
        | String "]" r' => Some (decode.Array (acc ++ [v]), r')
        | _ => None
        end
    | None => None
    end.
Proof. reflexivity. Qed.

Lemma Join_pretty_head (m : ModuleInfo) (ms : list ModuleInfo) (sep tail : string) :
  ∃ t, Join (json_pretty_module <$> m :: ms) sep +:+ tail = String "{" t.
Proof.
  destruct ms as [|m' ms]; cbn [fmap list_fmap Join]; unfold json_pretty_module;
    rewrite !append_assoc; eexists; reflexivity.
Qed.

Lemma parse_modules (ms : list ModuleInfo) :
  ∀ (m : ModuleInfo) (fuel : nat) (acc : list decode.value) (s rest : string),
    decode.skip_space s
    = Join (json_pretty_module <$> m :: ms) ("," +:+ LF +:+ "    ")
      +:+ LF +:+ "  ]" +:+ rest →
    forallb ascii_fields (m :: ms) = true →
    decode.parse_elements (7 + (length ms + fuel)) s acc
    = Some (decode.Array (acc ++ (json_value_of <$> m :: ms)), rest).
Proof.
  induction ms as [|m' ms IH]; intros m fuel acc s rest Hs Hall;
    apply andb_true_iff in Hall as [Hm Hms].
  - cbn [fmap list_fmap Join] in Hs.
    change (7 + (length [] + fuel)) with (S (S (S (S (S (S (S fuel))))))).
    rewrite parse_elements_step, (parse_module _ _ _ _ Hs Hm). reflexivity.
  - change (Join (json_pretty_module <$> m :: m' :: ms) ("," +:+ LF +:+ "    "))
      with (json_pretty_module m +:+ ("," +:+ LF +:+ "    ")
            +:+ Join (json_pretty_module <$> m' :: ms) ("," +:+ LF +:+ "    ")) in Hs.
    rewrite !append_assoc in Hs.
    change (7 + (length (m' :: ms) + fuel))
      with (S (S (S (S (S (S (S (S (length ms + fuel))))))))).
    rewrite parse_elements_step, (parse_module _ _ _ _ Hs Hm).
    change (decode.skip_space ("," +:+ ?x)) with (String "," x). cbv iota beta.
    change (S (S (S (S (S (S (S (length ms + fuel))))))))
      with (7 + (length ms + fuel)).
    destruct (Join_pretty_head m' ms ("," +:+ LF +:+ "    ") (LF +:+ "  ]" +:+ rest))
      as [t Ht].
    rewrite (IH m' fuel (acc ++ [json_value_of m]) _ rest).
    + now rewrite <- app_assoc.
    + rewrite Ht. reflexivity.
    + exact Hms.
Qed.
Lemma length_Join_pretty (ms : list ModuleInfo) (sep : string) :
  length ms ≤ String.length (Join (json_pretty_module <$> ms) sep).
Proof.
  induction ms as [|m [|m' ms] IH].
  - simpl. lia.
  - cbn [fmap list_fmap Join]. unfold json_pretty_module.
    rewrite length_append. simpl. lia.
  - change (Join (json_pretty_module <$> m :: m' :: ms) sep)
      with (json_pretty_module m +:+ sep +:+ Join (json_pretty_module <$> m' :: ms) sep).
    unfold json_pretty_module at 1. rewrite !length_append.
    change (length (m :: m' :: ms)) with (S (length (m' :: ms))).
    simpl String.length at 1. lia.
Qed.

Lemma exists_excess (n k : nat) : S k ≤ n → ∃ f, n = S (k + f).
Proof. intros Hle. exists (n - S k). lia. Qed.

Lemma parse_members_step (fuel : nat) (s : string) (acc : list (string * decode.value)) :
  decode.parse_members (S fuel) s acc
  = match decode.skip_space s with
    | String c t =>
        if Ascii.eqb c dquote then
          match decode.unquote 0 t with
          | Some (key, r) =>
              match decode.skip_space r with
              | String ":" r' =>
                  match decode.parse_value fuel r' with
                  | Some (v, r'') =>
                      match decode.skip_space r'' with
                      | String "," r3 => decode.parse_members fuel r3 (acc ++ [(key, v)])
                      | String "}" r3 => Some (decode.Object (acc ++ [(key, v)]), r3)
                      | _ => None
                      end
                  | None => None
                  end
              | _ => None
              end
          | None => None
          end
        else None
    | EmptyString => None
    end.
Proof. reflexivity. Qed.

Lemma parse_pretty (x : xml.Name) (m : ModuleInfo) (ms : list ModuleInfo) :
  forallb ascii_fields (m :: ms) = true →
  decode.parse (json_pretty {| XMLName := x; Modules := m :: ms |})
  = Some (decode.Object [("modules", decode.Array (json_value_of <$> m :: ms))]).
Proof.
  intros Hall. unfold decode.parse, json_pretty. cbn [Modules].
  set (J := Join (json_pretty_module <$> m :: ms) ("," +:+ LF +:+ "    ")).
  assert (∃ f, String.length J = S (length ms + f)) as [f Hf].
  { apply exists_excess. apply (length_Join_pretty (m :: ms)). }
  match goal with
  | |- context [decode.parse_value (S (String.length ?data)) ?data] =>
      assert (S (String.length data) = 10 + (length ms + (f + 20))) as ->
  end.
  { rewrite !length_append, Hf. simpl. lia. }
  change (10 + (length ms + (f + 20))) with (S (S (S (7 + (length ms + (f + 20)))))).
  rewrite ?append_assoc.
  erewrite parse_value_object;
    [ | reflexivity
      | intros r; change (decode.skip_space (LF +:+ "  " +:+ ?y)) with (decode.skip_space y);
        rewrite skip_space_literal, appendString_app; discriminate ].
  change (decode.skip_space (LF +:+ "  " +:+ ?y)) with (decode.skip_space y).
  rewrite skip_space_literal, parse_members_step, skip_space_literal, appendString_app.
  rewrite Ascii.eqb_refl, (unquote_appendString "modules" _ eq_refl).
  change (decode.skip_space (": [" +:+ ?y)) with (String ":" (" [" +:+ y)). cbv iota beta.
  destruct (Join_pretty_head m ms ("," +:+ LF +:+ "    ") (LF +:+ "  ]" +:+ LF +:+ "}" +:+ LF))
    as [t Ht]. fold J in Ht.
  erewrite (parse_value_array _ (" [" +:+ _));
    [ | reflexivity
      | intros r; change (decode.skip_space (LF +:+ "    " +:+ ?y)) with (decode.skip_space y);
        rewrite Ht; discriminate ].
  rewrite (parse_modules ms m _ [] _ (LF +:+ "}" +:+ LF)); [ | | exact Hall].
  - reflexivity.
  - change (decode.skip_space (LF +:+ "    " +:+ ?y)) with (decode.skip_space y).
    fold J. rewrite Ht.
    change (decode.skip_space (String "{" t)) with (String "{" t).
    change (decode.skip_space (String "{" t)) with (String "{" t).
    reflexivity.
Qed.
Lemma decode_ModuleInfo_value (m : ModuleInfo) : decode_ModuleInfo (json_value_of m) = inl m.
Proof. destruct m. vm_compute. reflexivity. Qed.

Lemma decode_Modules_values (ms : list ModuleInfo) :
  decode_Modules (json_value_of <$> ms) = inl ms.
Proof.
  induction ms as [|m ms IH]; [reflexivity|].
  cbn [fmap list_fmap decode_Modules]. change (list_fmap _ _ json_value_of ms)
    with (json_value_of <$> ms).
  now rewrite decode_ModuleInfo_value, IH.
Qed.

Lemma json_Unmarshal_pretty (sbom : SBOM) :
  forallb ascii_fields (Modules sbom) = true →
  json_Unmarshal (json_pretty sbom)
  = inl {| XMLName := XMLName SBOM_zero; Modules := Modules sbom |}.
Proof.
  destruct sbom as [x [|m ms]]; cbn [Modules]; intros Hall; [vm_compute; reflexivity|].
  unfold json_Unmarshal. rewrite (parse_pretty x m ms Hall).
  cbn [foldl]. unfold decode_SBOM_member.
  change (decode.field_is "modules" "modules") with true. cbv iota.
  cbn [Modules SBOM_zero]. now rewrite decode_Modules_values.
Qed.

(** X16: for an SBOM with at least one record, all of them with ASCII
    fields, the bytes written by the JSON encoder are laid out as a fixed
    text: one object with the key [modules] holding an array with one object
    per record in the order of the SBOM, with the keys name, source,
    version, config in that order, indented by two spaces per level, and a
    final line feed. *)
Theorem json_Encode_layout (sbom : SBOM) :
  Modules sbom ≠ [] →
  forallb ascii_fields (Modules sbom) = true →
  json_Encode sbom
  = "{" +:+ LF +:+ "  " +:+ json.appendString "modules" +:+ ": [" +:+ LF
    +:+ "    "
    +:+ Join ((λ m,
           "{" +:+ LF
           +:+ "      " +:+ json.appendString "name" +:+ ": "
               +:+ json.appendString (Name m) +:+ "," +:+ LF
           +:+ "      " +:+ json.appendString "source" +:+ ": "
               +:+ json.appendString (Source m) +:+ "," +:+ LF
           +:+ "      " +:+ json.appendString "version" +:+ ": "
               +:+ json.appendString (Version m) +:+ "," +:+ LF
           +:+ "      " +:+ json.appendString "config" +:+ ": "
               +:+ json.appendString (Config m) +:+ LF
           +:+ "    }") <$> Modules sbom) ("," +:+ LF +:+ "    ")
    +:+ LF +:+ "  ]" +:+ LF +:+ "}" +:+ LF.
Proof.
  intros Hne Hall. rewrite (json_Encode_pretty _ Hall). unfold json_pretty.
  destruct (Modules sbom) as [|m ms]; [now destruct Hne | reflexivity].
Qed.

Lemma json_Encode_layout_witness :
  json_Encode sbom_vpc_s3
  = "{" +:+ LF +:+ "  " +:+ json.appendString "modules" +:+ ": [" +:+ LF
    +:+ "    "
    +:+ Join ((λ m,
           "{" +:+ LF
           +:+ "      " +:+ json.appendString "name" +:+ ": "
               +:+ json.appendString (Name m) +:+ "," +:+ LF
           +:+ "      " +:+ json.appendString "source" +:+ ": "
               +:+ json.appendString (Source m) +:+ "," +:+ LF
           +:+ "      " +:+ json.appendString "version" +:+ ": "
               +:+ json.appendString (Version m) +:+ "," +:+ LF
           +:+ "      " +:+ json.appendString "config" +:+ ": "
               +:+ json.appendString (Config m) +:+ LF
           +:+ "    }") <$> Modules sbom_vpc_s3) ("," +:+ LF +:+ "    ")
    +:+ LF +:+ "  ]" +:+ LF +:+ "}" +:+ LF.
Proof. apply (json_Encode_layout sbom_vpc_s3); [discriminate | reflexivity]. Defined.

(** X17: round trip of the JSON emitter. For every SBOM whose records have
    ASCII fields and every output path that is not a directory, the file
    written by [writeSBOMToJSON], read and decoded by [json.Unmarshal] into
    a zero SBOM, gives the records back, equal and in the same order. *)
Theorem json_round_trip_ascii (sbom : SBOM) (outputPath : string) (w : os.World) :
  forallb ascii_fields (Modules sbom) = true →
  os.files w !! outputPath ≠ Some os.Dir →
  ∃ content,
    os.ReadFile outputPath (writeSBOMToJSON sbom outputPath w).1 = inl content
    ∧ json_Unmarshal content
      = inl {| XMLName := XMLName SBOM_zero; Modules := Modules sbom |}.
Proof.
  intros Hall Hnd. exists (json_Encode sbom). split.
  - now apply ReadFile_writeSBOMToJSON.
  - rewrite (json_Encode_pretty _ Hall). now apply json_Unmarshal_pretty.
Qed.

Lemma json_round_trip_ascii_witness :
  ∃ content,
    os.ReadFile "out" (writeSBOMToJSON sbom_net "out" world_with_file).1 = inl content
    ∧ json_Unmarshal content
      = inl {| XMLName := XMLName SBOM_zero; Modules := Modules sbom_net |}.
Proof.
  apply (json_round_trip_ascii sbom_net "out" world_with_file).
  - reflexivity.
  - discriminate.
Defined.

(** ** The XML emitter *)

Lemma xml_writeStart_out (name text : string) (d : nat) (inside : bool) :
  xml.writeStart name
    {| xml.out := text; xml.prefix := ""; xml.indent := "  "; xml.depth := d;
       xml.indentedIn := inside; xml.putNewline := true |}
  = {| xml.out := ((text +:+ LF) +:+ Repeat "  " d) +:+ "<" +:+ name +:+ ">";
       xml.prefix := ""; xml.indent := "  "; xml.depth := S d;
       xml.indentedIn := true; xml.putNewline := true |}.
Proof. reflexivity. Qed.

Lemma xml_writeEnd_inline (name text : string) (d : nat) :
  xml.writeEnd name
    {| xml.out := text; xml.prefix := ""; xml.indent := "  "; xml.depth := S d;
       xml.indentedIn := true; xml.putNewline := true |}
  = {| xml.out := text +:+ "</" +:+ name +:+ ">";
       xml.prefix := ""; xml.indent := "  "; xml.depth := d;
       xml.indentedIn := false; xml.putNewline := true |}.
Proof. reflexivity. Qed.

Lemma xml_writeEnd_line (name text : string) (d : nat) :
  xml.writeEnd name
    {| xml.out := text; xml.prefix := ""; xml.indent := "  "; xml.depth := S d;
       xml.indentedIn := false; xml.putNewline := true |}
  = {| xml.out := ((text +:+ LF) +:+ Repeat "  " d) +:+ "</" +:+ name +:+ ">";
       xml.prefix := ""; xml.indent := "  "; xml.depth := d;
       xml.indentedIn := false; xml.putNewline := true |}.
Proof. reflexivity. Qed.

Lemma xml_marshalString_out (name s text : string) (d : nat) (inside : bool) :
  xml.marshalString name s
    {| xml.out := text; xml.prefix := ""; xml.indent := "  "; xml.depth := d;
       xml.indentedIn := inside; xml.putNewline := true |}
  = {| xml.out := text +:+ LF +:+ Repeat "  " d +:+ "<" +:+ name +:+ ">"
                  +:+ xml.EscapeString_loop 0 true s +:+ "</" +:+ name +:+ ">";
       xml.prefix := ""; xml.indent := "  "; xml.depth := d;
       xml.indentedIn := false; xml.putNewline := true |}.
Proof.
  unfold xml.marshalString. rewrite xml_writeStart_out.
  unfold xml.EscapeString, xml.WriteString. cbn [xml.out xml.prefix xml.indent xml.depth
    xml.indentedIn xml.putNewline].
  rewrite xml_writeEnd_inline. f_equal. now rewrite !append_assoc.
Qed.

Lemma xml_marshal_ModuleInfo_out (m : ModuleInfo) (text : string) (inside : bool) :
  xml_marshal_ModuleInfo
    {| xml.out := text; xml.prefix := ""; xml.indent := "  "; xml.depth := 2;
       xml.indentedIn := inside; xml.putNewline := true |} m
  = {| xml.out := text +:+ xml_pretty_module m; xml.prefix := ""; xml.indent := "  ";
       xml.depth := 2; xml.indentedIn := false; xml.putNewline := true |}.
Proof.
  unfold xml_marshal_ModuleInfo. cbv zeta.
  rewrite xml_writeStart_out, !xml_marshalString_out, xml_writeEnd_line.
  f_equal. unfold xml_pretty_module, xml_field. rewrite !append_assoc. reflexivity.
Qed.

Lemma xml_marshal_modules_out (ms : list ModuleInfo) :
  ∀ (text : string) (inside : bool),
    ms ≠ [] ∨ inside = false →
    foldl xml_marshal_ModuleInfo
      {| xml.out := text; xml.prefix := ""; xml.indent := "  "; xml.depth := 2;
         xml.indentedIn := inside; xml.putNewline := true |} ms
    = {| xml.out := text +:+ foldr (λ m rest, xml_pretty_module m +:+ rest) "" ms;
         xml.prefix := ""; xml.indent := "  "; xml.depth := 2;
         xml.indentedIn := false; xml.putNewline := true |}.
Proof.
  induction ms as [|m ms IH]; intros text inside Hne.
  - destruct Hne as [Hne | ->]; [congruence|]. cbn [foldl foldr]. now rewrite append_nil_r.
  - cbn [foldl foldr]. rewrite xml_marshal_ModuleInfo_out, IH by now right.
    f_equal. now rewrite append_assoc.
Qed.

Lemma xml_pretty_modules_explicit (ms : list ModuleInfo) :
  foldr (λ m rest, xml_pretty_module m +:+ rest) "" ms
  = foldr (λ m rest,
          LF +:+ "    <Module>"
          +:+ LF +:+ "      <Name>" +:+ xml.EscapeString_loop 0 true (Name m) +:+ "</Name>"
          +:+ LF +:+ "      <Source>" +:+ xml.EscapeString_loop 0 true (Source m) +:+ "</Source>"
          +:+ LF +:+ "      <Version>" +:+ xml.EscapeString_loop 0 true (Version m) +:+ "</Version>"
          +:+ LF +:+ "      <ConfigPath>" +:+ xml.EscapeString_loop 0 true (Config m)
          +:+ "</ConfigPath>"
          +:+ LF +:+ "    </Module>" +:+ rest) "" ms.
Proof.
  induction ms as [|m ms IH]; [reflexivity|]. cbn [foldr]. rewrite IH.
  unfold xml_pretty_module, xml_field. rewrite !append_assoc. reflexivity.
Qed.

(** X18: the bytes written by the XML encoder: the root element [SBOM],
    inside it one element [Modules], empty when there is no record, and
    inside it one element [Module] per record in the order of the SBOM,
    with the children Name, Source, Version and ConfigPath in that order
    holding the escaped fields; two spaces of indentation per level and no
    final line feed. *)
Theorem xml_Encode_layout (sbom : SBOM) :
  xml_Encode sbom
  = "<SBOM>" +:+ LF +:+ "  <Modules>"
    +:+ foldr (λ m rest,
          LF +:+ "    <Module>"
          +:+ LF +:+ "      <Name>" +:+ xml.EscapeString_loop 0 true (Name m) +:+ "</Name>"
          +:+ LF +:+ "      <Source>" +:+ xml.EscapeString_loop 0 true (Source m) +:+ "</Source>"
          +:+ LF +:+ "      <Version>" +:+ xml.EscapeString_loop 0 true (Version m) +:+ "</Version>"
          +:+ LF +:+ "      <ConfigPath>" +:+ xml.EscapeString_loop 0 true (Config m)
          +:+ "</ConfigPath>"
          +:+ LF +:+ "    </Module>" +:+ rest) "" (Modules sbom)
    +:+ (match Modules sbom with [] => "" | _ => LF +:+ "  " end)
    +:+ "</Modules>" +:+ LF +:+ "</SBOM>".
Proof.
  unfold xml_Encode, xml_marshal. cbv zeta.
  change (xml.writeStart "Modules" (xml.writeStart "SBOM" (xml.Indent "" "  " xml.NewPrinter)))
    with {| xml.out := "<SBOM>" +:+ LF +:+ "  <Modules>"; xml.prefix := ""; xml.indent := "  ";
            xml.depth := 2; xml.indentedIn := true; xml.putNewline := true |}.
  destruct (Modules sbom) as [|m ms].
  - reflexivity.
  - rewrite xml_marshal_modules_out by (left; discriminate).
    rewrite xml_writeEnd_line, xml_writeEnd_line. cbn [xml.out].
    rewrite xml_pretty_modules_explicit. rewrite ?append_assoc. reflexivity.
Qed.
